(** * admin_portal: the reusable utilities of [app/static/js/script.js]

    A shallow embedding of the week-identifier arithmetic, the product
    display strings, the customer normalisation and the localStorage-backed
    customer, product and callsheet repositories, with the properties the
    specification states about them.

    Conventions of the embedding.
    - A JavaScript number that may be [NaN] is an [option Z]; [None] is [NaN].
      Every number the modelled functions compute is an integer (or [NaN]).
    - A [Date] object is its time value.  The source reads dates through the
      local calendar fields only ([getDay], [getDate], [getMonth],
      [getFullYear]); the time value of the model is the local one, that is,
      the zone offset is taken to be zero.
    - Strings are sequences of code units below 256.
    - localStorage holds, per key, the JSON text of a value; the model keeps
      the parsed value and takes [JSON.parse (JSON.stringify v)] to be [v]
      and the writes to succeed. *)

From Stdlib Require Import ZArith Lia Ascii String List Bool.
From stdpp Require Import base option list strings gmap.

Local Open Scope Z_scope.

(** ** Time values and the calendar (ECMAScript, Date objects) *)

Module JSDate.

Definition msPerDay : Z := 86400000.

Definition Day (t : Z) : Z := t / msPerDay.

Definition TimeWithinDay (t : Z) : Z := t mod msPerDay.

Definition DayFromYear (y : Z) : Z :=
  365 * (y - 1970) + (y - 1969) / 4 - (y - 1901) / 100 + (y - 1601) / 400.

Definition DaysInYear (y : Z) : Z :=
  if negb (y mod 4 =? 0) then 365
  else if negb (y mod 100 =? 0) then 366
  else if negb (y mod 400 =? 0) then 365
  else 366.

(** The largest [y] with [DayFromYear y <= day]: an estimate from the mean
    length of a year, corrected by at most one. *)
Definition YearFromDay (day : Z) : Z :=
  let y := 1970 + (day * 400) / 146097 in
  if DayFromYear (y + 1) <=? day then y + 1
  else if DayFromYear y <=? day then y
  else y - 1.

Definition YearFromTime (t : Z) : Z := YearFromDay (Day t).

Definition InLeapYear (t : Z) : Z :=
  if DaysInYear (YearFromTime t) =? 366 then 1 else 0.

Definition DayWithinYear (t : Z) : Z := Day t - DayFromYear (YearFromTime t).

(** The day number, within its year, of the first day of month [m]. *)
Definition monthStart (m leap : Z) : Z :=
  if m <=? 0 then 0
  else if m =? 1 then 31
  else if m =? 2 then 59 + leap
  else if m =? 3 then 90 + leap
  else if m =? 4 then 120 + leap
  else if m =? 5 then 151 + leap
  else if m =? 6 then 181 + leap
  else if m =? 7 then 212 + leap
  else if m =? 8 then 243 + leap
  else if m =? 9 then 273 + leap
  else if m =? 10 then 304 + leap
  else 334 + leap.

Definition MonthFromTime (t : Z) : Z :=
  let d := DayWithinYear t in
  let leap := InLeapYear t in
  if d <? 31 then 0
  else if d <? 59 + leap then 1
  else if d <? 90 + leap then 2
  else if d <? 120 + leap then 3
  else if d <? 151 + leap then 4
  else if d <? 181 + leap then 5
  else if d <? 212 + leap then 6
  else if d <? 243 + leap then 7
  else if d <? 273 + leap then 8
  else if d <? 304 + leap then 9
  else if d <? 334 + leap then 10
  else 11.

Definition DateFromTime (t : Z) : Z :=
  DayWithinYear t - monthStart (MonthFromTime t) (InLeapYear t) + 1.

Definition WeekDay (t : Z) : Z := (Day t + 4) mod 7.

(** [MakeDay year month date]: the month is carried into the year, the date
    may lie outside the month. *)
Definition MakeDay (year month date : Z) : Z :=
  let ym := year + month / 12 in
  let mn := month mod 12 in
  DayFromYear ym
  + monthStart mn (if DaysInYear ym =? 366 then 1 else 0)
  + date - 1.

Definition MakeDate (day time : Z) : Z := day * msPerDay + time.

Definition TimeClip (t : Z) : option Z :=
  if 8640000000000000 <? Z.abs t then None else Some t.

(** A Date object: its time value, [None] for an invalid date. *)
Definition Date := option Z.

(** The getters and setters of the local calendar; the time value is the
    local one. *)
Definition getFullYear (d : Date) : option Z := YearFromTime <$> d.
Definition getMonth (d : Date) : option Z := MonthFromTime <$> d.
Definition getDate (d : Date) : option Z := DateFromTime <$> d.
Definition getDay (d : Date) : option Z := WeekDay <$> d.

(** [d.setDate(dt)], returning the new time value. *)
Definition setDate (d : Date) (dt : option Z) : option Z :=
  match d, dt with
  | Some t, Some n =>
      TimeClip (MakeDate (MakeDay (YearFromTime t) (MonthFromTime t) n)
                         (TimeWithinDay t))
  | _, _ => None
  end.

(** Their UTC counterparts, on a time value built by [Date.UTC]. *)
Definition getUTCFullYear (d : Date) : option Z := YearFromTime <$> d.
Definition getUTCDate (d : Date) : option Z := DateFromTime <$> d.
Definition getUTCDay (d : Date) : option Z := WeekDay <$> d.

Definition setUTCDate (d : Date) (dt : option Z) : option Z :=
  match d, dt with
  | Some t, Some n =>
      TimeClip (MakeDate (MakeDay (YearFromTime t) (MonthFromTime t) n)
                         (TimeWithinDay t))
  | _, _ => None
  end.

(** [Date.UTC(year, month, date)]: a year from 0 to 99 means 1900 + year. *)
Definition DateUTC (year month date : option Z) : option Z :=
  match year, month, date with
  | Some y, Some m, Some dt =>
      let yr := if (0 <=? y) && (y <=? 99) then 1900 + y else y in
      TimeClip (MakeDate (MakeDay yr m dt) 0)
  | _, _, _ => None
  end.

(** A date built from calendar fields at a time of day, for examples. *)
Definition civil (y m dt hours : Z) : Date :=
  Some (MakeDate (MakeDay y (m - 1) dt) (hours * 3600000)).

End JSDate.

(** ** Numbers as text *)

Module JSString.

Definition digit_char (n : Z) : ascii := ascii_of_nat (48 + Z.to_nat n).

Fixpoint digits_of (fuel : nat) (n : Z) (acc : string) : string :=
  match fuel with
  | O => acc
  | S fuel' =>
      let acc' := String (digit_char (n mod 10)) acc in
      if n <? 10 then acc' else digits_of fuel' (n / 10) acc'
  end.

(** [String(n)] for an integer or [NaN]. *)
Definition NumberToString (n : option Z) : string :=
  match n with
  | None => "NaN"%string
  | Some z =>
      if z <? 0
      then String "-" (digits_of (S (Z.to_nat (Z.log2 (- z)))) (- z) "")
      else digits_of (S (Z.to_nat (Z.log2 z))) z ""
  end.

Fixpoint repeat_char (c : ascii) (n : nat) : string :=
  match n with
  | O => ""%string
  | S n' => String c (repeat_char c n')
  end.

(** [s.padStart(target, c)] for a filler of one character. *)
Definition padStart (target : nat) (c : ascii) (s : string) : string :=
  (repeat_char c (target - String.length s) ++ s)%string.

End JSString.

(** ** Date utilities *)

Import JSDate JSString.

Definition getMondayOfWeek (date : Date) : Date :=
  let d := date in
  let day := getDay d in
  let diff :=
    match getDate d, day with
    | Some dt, Some w => Some (dt - w + (if w =? 0 then -6 else 1))
    | _, _ => None
    end in
  match setDate d diff with
  | Some u => TimeClip u
  | None => None
  end.

(** [Math.ceil(a / b)] for integers [a] and [b > 0]. *)
Definition ceil_div (a b : Z) : Z := - ((- a) / b).

(** Both [d] and [yearStart] are midnights, so [(d - yearStart) / 86400000]
    is a whole number of days. *)
Definition getWeekNumber (date : Date) : option Z :=
  let d := DateUTC (getFullYear date) (getMonth date) (getDate date) in
  let dayNum :=
    match getUTCDay d with
    | Some w => if w =? 0 then 7 else w
    | None => 7
    end in
  let d := setUTCDate d (match getUTCDate d with
                         | Some dt => Some (dt + 4 - dayNum)
                         | None => None
                         end) in
  let yearStart := DateUTC (getUTCFullYear d) (Some 0) (Some 1) in
  match d, yearStart with
  | Some td, Some ts => Some (ceil_div ((td - ts) / 86400000 + 1) 7)
  | _, _ => None
  end.

Definition getWeekIdentifier (date : Date) : string :=
  let monday := getMondayOfWeek date in
  let weekNum := getWeekNumber monday in
  (NumberToString (getFullYear monday) ++ "-W"
   ++ padStart 2 "0" (NumberToString weekNum))%string.

(** The week a day belongs to, stated on day numbers: day 0 (1 January 1970)
    is a Thursday, so the Monday-to-Sunday spans are the days -3..3, 4..10,
    and so on. *)
Definition weekIndex (day : Z) : Z := (day + 3) / 7.

Definition mondayOfDay (day : Z) : Z := day - (day + 3) mod 7.

Definition thursdayOfDay (day : Z) : Z := mondayOfDay day + 3.

(** Two time values lie in the same Monday-to-Sunday span. *)
Definition same_week (t1 t2 : Z) : Prop :=
  weekIndex (Day t1) = weekIndex (Day t2).

(** The time values a Date object can hold. *)
Definition valid_time (t : Z) : Prop := Z.abs t <= 8640000000000000.

(** The ISO week-numbering year of a time value: the calendar year of the
    Thursday of its week. *)
Definition isoWeekYear (t : Z) : Z := YearFromDay (thursdayOfDay (Day t)).

Definition is_digit (c : ascii) : bool :=
  (48 <=? nat_of_ascii c)%nat && (nat_of_ascii c <=? 57)%nat.

(** The pattern [^\d{4}-W\d{2}$]. *)
Definition matches_week_pattern (s : string) : bool :=
  match s with
  | String y1 (String y2 (String y3 (String y4
      (String dash (String w (String w1 (String w2 EmptyString))))))) =>
      is_digit y1 && is_digit y2 && is_digit y3 && is_digit y4
      && Ascii.eqb dash "-" && Ascii.eqb w "W"
      && is_digit w1 && is_digit w2
  | _ => false
  end.

(** The text of a week identifier before its ["-W"]. *)
Fixpoint year_component (s : string) : string :=
  match s with
  | EmptyString => EmptyString
  | String c s' =>
      match c, s' with
      | "-"%char, String "W"%char _ => EmptyString
      | _, _ => String c (year_component s')
      end
  end.

(** ** Product code utilities *)

Record Product := mkProduct { name : string; code : string }.

(** [\s], and the characters [trim] removes: tab, line feed, vertical tab,
    form feed, carriage return, space and no-break space. *)
Definition is_white_space (c : ascii) : bool :=
  let n := nat_of_ascii c in
  ((9 <=? n)%nat && (n <=? 13)%nat) || (n =? 32)%nat || (n =? 160)%nat.

(** The characters [.] does not match. *)
Definition is_line_terminator (c : ascii) : bool :=
  let n := nat_of_ascii c in (n =? 10)%nat || (n =? 13)%nat.

Definition is_empty (s : string) : bool :=
  match s with EmptyString => true | _ => false end.

Fixpoint trimStart (s : string) : string :=
  match s with
  | EmptyString => EmptyString
  | String c s' => if is_white_space c then trimStart s' else s
  end.

Fixpoint trimEnd (s : string) : string :=
  match s with
  | EmptyString => EmptyString
  | String c s' =>
      let r := trimEnd s' in
      if is_white_space c && is_empty r then EmptyString else String c r
  end.

Definition trim (s : string) : string := trimEnd (trimStart s).

Definition formatProductWithCode (product : option Product) : string :=
  match product with
  | None => ""
  | Some p =>
      if negb (is_empty (code p))
      then (name p ++ " [" ++ code p ++ "]")%string
      else name p
  end.

(** The pattern [/^(.+?)\s*\[([^\]]+)\]$/], piece by piece, in the order a
    backtracking matcher tries the alternatives. *)

(** [[^\]]*\]$]: the characters up to a closing bracket that ends the
    input.  The class cannot give a character back: the next one would have
    to be the bracket. *)
Fixpoint class_then_close (s : string) : option string :=
  match s with
  | EmptyString => None
  | String c s' =>
      if Ascii.eqb c "]"
      then (if is_empty s' then Some EmptyString else None)
      else String c <$> class_then_close s'
  end.

(** [\[([^\]]+)\]$]: the second group. *)
Definition bracket_group (s : string) : option string :=
  match s with
  | String c s' =>
      if Ascii.eqb c "["
      then match class_then_close s' with
           | Some g => if is_empty g then None else Some g
           | None => None
           end
      else None
  | EmptyString => None
  end.

(** [\s*\[([^\]]+)\]$]: white space is taken greedily; giving it back
    leaves a white space where the opening bracket must be. *)
Fixpoint space_then_bracket (s : string) : option string :=
  match s with
  | String c s' =>
      if is_white_space c then
        match space_then_bracket s' with
        | Some g => Some g
        | None => bracket_group s
        end
      else bracket_group s
  | EmptyString => None
  end.

(** [(.+?)] has matched [before]; it is lazy, so the rest of the pattern is
    tried first and the group grows by one character when that fails. *)
Fixpoint lazy_group (before rest : string) : option (string * string) :=
  match space_then_bracket rest with
  | Some g => Some (before, g)
  | None =>
      match rest with
      | String c rest' =>
          if is_line_terminator c then None
          else lazy_group (before ++ String c EmptyString) rest'
      | EmptyString => None
      end
  end.

(** [productString.match(/^(.+?)\s*\[([^\]]+)\]$/)]: the two groups. *)
Definition match_product_pattern (s : string) : option (string * string) :=
  match s with
  | String c rest =>
      if is_line_terminator c then None
      else lazy_group (String c EmptyString) rest
  | EmptyString => None
  end.

Definition parseProductString (productString : string) : Product :=
  if is_empty productString then mkProduct "" ""
  else
    match match_product_pattern productString with
    | Some (g1, g2) => mkProduct (trim g1) (trim g2)
    | None => mkProduct (trim productString) ""
    end.

(** [toLowerCase] on code units below 256: A-Z and the accented capitals
    (192-222 but for the multiplication sign) move up by 32. *)
Definition lower_char (c : ascii) : ascii :=
  let n := nat_of_ascii c in
  if ((65 <=? n)%nat && (n <=? 90)%nat)
     || ((192 <=? n)%nat && (n <=? 222)%nat && negb (n =? 215)%nat)
  then ascii_of_nat (n + 32) else c.

Fixpoint toLowerCase (s : string) : string :=
  match s with
  | EmptyString => EmptyString
  | String c s' => String (lower_char c) (toLowerCase s')
  end.

(** [s.includes(needle)]. *)
Fixpoint includes (s needle : string) : bool :=
  String.prefix needle s
  || match s with
     | EmptyString => false
     | String _ s' => includes s' needle
     end.

(** [needle] occurs in [s] when case is ignored. *)
Definition occurs_ignoring_case (needle s : string) : Prop :=
  exists pre post : string,
    toLowerCase s = (pre ++ toLowerCase needle ++ post)%string.

(** Conditions on product names and codes, for the round trip. *)

Fixpoint has_char (c : ascii) (s : string) : bool :=
  match s with
  | EmptyString => false
  | String c' s' => Ascii.eqb c' c || has_char c s'
  end.

(** Every opening bracket is followed, later in the string, by a closing
    one. *)
Fixpoint brackets_closed (s : string) : bool :=
  match s with
  | EmptyString => true
  | String c s' =>
      (if Ascii.eqb c "[" then has_char "]" s' else true) && brackets_closed s'
  end.

Fixpoint has_line_terminator (s : string) : bool :=
  match s with
  | EmptyString => false
  | String c s' => is_line_terminator c || has_line_terminator s'
  end.

(** The string ends with a closing bracket. *)
Fixpoint ends_with_close (s : string) : bool :=
  match s with
  | EmptyString => false
  | String c s' => if is_empty s' then Ascii.eqb c "]" else ends_with_close s'
  end.

(** A trailing bracket suffix: the string ends with an opening bracket, a
    code that is not empty and has no closing bracket, and a closing
    bracket. *)
Fixpoint bracket_body (s : string) : bool :=
  match s with
  | EmptyString => false
  | String c s' =>
      negb (Ascii.eqb c "]")
      && (match s' with
          | String c' EmptyString => Ascii.eqb c' "]"
          | _ => false
          end || bracket_body s')
  end.

Fixpoint has_bracket_suffix (s : string) : bool :=
  match s with
  | EmptyString => false
  | String c s' => (Ascii.eqb c "[" && bracket_body s') || has_bracket_suffix s'
  end.

(** ** JavaScript values as JSON.parse builds them *)

#[local] Unset Elimination Schemes.

Inductive value : Type :=
| VUndefined
| VNull
| VBool (b : bool)
| VNum (n : Z)
| VStr (s : string)
| VArr (items : list value)
| VObj (props : list (string * value)).

#[local] Set Elimination Schemes.

(** An object: its own properties, in insertion order. *)
Definition obj : Type := list (string * value).

(** [ToBoolean]. *)
Definition truthy (v : value) : bool :=
  match v with
  | VUndefined | VNull => false
  | VBool b => b
  | VNum n => negb (n =? 0)
  | VStr s => negb (is_empty s)
  | VArr _ | VObj _ => true
  end.

(** [o[k]] on an object; [undefined] when the property is absent. *)
Fixpoint getProp (o : obj) (k : string) : value :=
  match o with
  | [] => VUndefined
  | (k', v) :: o' => if String.eqb k' k then v else getProp o' k
  end.

(** [o[k] = v]: an existing property keeps its place, a new one is added
    last. *)
Fixpoint setProp (o : obj) (k : string) (v : value) : obj :=
  match o with
  | [] => [(k, v)]
  | (k', v') :: o' =>
      if String.eqb k' k then (k', v) :: o' else (k', v') :: setProp o' k v
  end.

(** [x.k] for a property name that is neither an index nor [length]:
    only objects have such properties. *)
Definition prop (x : value) (k : string) : value :=
  match x with
  | VObj o => getProp o k
  | _ => VUndefined
  end.

Fixpoint index_props (i : nat) (l : list value) : obj :=
  match l with
  | [] => []
  | v :: l' => (NumberToString (Some (Z.of_nat i)), v) :: index_props (S i) l'
  end.

Fixpoint string_items (s : string) : list value :=
  match s with
  | EmptyString => []
  | String c s' => VStr (String c EmptyString) :: string_items s'
  end.

(** The properties [{...x}] copies: those of an object, the elements of an
    array or the characters of a string under their indices, none of any
    other value. *)
Definition spread (x : value) : obj :=
  match x with
  | VObj o => o
  | VArr l => index_props 0 l
  | VStr s => index_props 0 (string_items s)
  | _ => []
  end.

(** [a === b] between a value read from storage and a value of the
    caller: two objects or arrays are never the same reference. *)
Definition strict_eq (a b : value) : bool :=
  match a, b with
  | VUndefined, VUndefined => true
  | VNull, VNull => true
  | VBool x, VBool y => Bool.eqb x y
  | VNum x, VNum y => x =? y
  | VStr x, VStr y => String.eqb x y
  | _, _ => false
  end.

(** ** Customer utilities *)

(** [v || ""]. *)
Definition or_empty (v : value) : value :=
  if truthy v then v else VStr "".

Definition normalizeCustomer (customer : value) : value :=
  if negb (truthy customer) then VNull
  else
    match prop customer "addresses" with
    | VArr (_ :: _) => customer
    | _ =>
        let normalized := spread customer in
        VObj (setProp normalized "addresses"
                (VArr [VObj [("label"%string, VStr "Primary");
                             ("street"%string, or_empty (prop customer "street"));
                             ("city"%string, or_empty (prop customer "city"));
                             ("state"%string, or_empty (prop customer "state"));
                             ("zip"%string, or_empty (prop customer "zip"));
                             ("country"%string, or_empty (prop customer "country"))]]))
    end.

(** ** localStorage *)

(** The three keys the module uses, each with the value its JSON text
    parses to; [None] when the key is absent. *)
Record Store := mkStore {
  customerDatabase : option (list obj);
  productDatabase : option (list Product);
  callsheets : option (gmap string (list value))
}.

Definition getAllCustomers (st : Store) : list obj :=
  default [] (customerDatabase st).

(** [l.findIndex(f)]: the first index whose element satisfies [f], or -1. *)
Fixpoint findIndex {A} (f : A -> bool) (l : list A) : Z :=
  match l with
  | [] => -1
  | x :: l' =>
      if f x then 0
      else let i := findIndex f l' in if i =? -1 then -1 else i + 1
  end.

(** The test of [saveCustomer]: the stored record [c] has the name of
    [customer]. *)
Definition same_name (customer c : obj) : bool :=
  strict_eq (getProp c "name") (getProp customer "name").

(** No name is stored twice. *)
Definition names_unique (l : list obj) : Prop :=
  forall c, (length (List.filter (same_name c) l) <= 1)%nat.

Definition saveCustomer (customer : obj) (st : Store) : bool * Store :=
  let customers := default [] (customerDatabase st) in
  let existingIndex :=
    findIndex (fun c => strict_eq (getProp c "name") (getProp customer "name"))
              customers in
  let customers :=
    if negb (existingIndex =? -1)
    then <[Z.to_nat existingIndex := customer]> customers
    else customers ++ [customer] in
  (true, mkStore (Some customers) (productDatabase st) (callsheets st)).

(** ** Product utilities *)

Definition getAllProducts (st : Store) : list Product :=
  default [] (productDatabase st).

Definition searchProducts (query : string) (st : Store) : list Product :=
  if is_empty query then []
  else
    let products := getAllProducts st in
    let searchTerm := toLowerCase query in
    List.filter
      (fun product =>
         includes (toLowerCase (name product)) searchTerm
         || (negb (is_empty (code product))
             && includes (toLowerCase (code product)) searchTerm))
      products.

(** ** Callsheet utilities *)

(** The stored callsheets are a plain object, so [callsheets[weekId]] finds
    the object's own entry lists first and then what every object inherits
    from [Object.prototype]: its functions, each with the [length] it has,
    and, under [__proto__], the prototype object itself. *)
Inductive Inherited : Type :=
| InheritedFunction (len : Z)
| InheritedObject.

Definition objectPrototype (key : string) : option Inherited :=
  if String.eqb key "constructor" then Some (InheritedFunction 1)
  else if String.eqb key "hasOwnProperty" then Some (InheritedFunction 1)
  else if String.eqb key "isPrototypeOf" then Some (InheritedFunction 1)
  else if String.eqb key "propertyIsEnumerable" then Some (InheritedFunction 1)
  else if String.eqb key "toLocaleString" then Some (InheritedFunction 0)
  else if String.eqb key "toString" then Some (InheritedFunction 0)
  else if String.eqb key "valueOf" then Some (InheritedFunction 0)
  else if String.eqb key "__defineGetter__" then Some (InheritedFunction 2)
  else if String.eqb key "__defineSetter__" then Some (InheritedFunction 2)
  else if String.eqb key "__lookupGetter__" then Some (InheritedFunction 1)
  else if String.eqb key "__lookupSetter__" then Some (InheritedFunction 1)
  else if String.eqb key "__proto__" then Some InheritedObject
  else None.

(** What [callsheets[weekId] || []] is: a list of entries, or an inherited
    member, which is truthy and not an array. *)
Inductive Sheet : Type :=
| Entries (entries : list value)
| Member (m : Inherited).

Definition getAllCallsheets (st : Store) : gmap string (list value) :=
  default ∅ (callsheets st).

Definition getCallsheetForWeek (weekId : string) (st : Store) : Sheet :=
  let callsheets := getAllCallsheets st in
  match callsheets !! weekId with
  | Some entries => Entries entries
  | None =>
      match objectPrototype weekId with
      | Some m => Member m
      | None => Entries []
      end
  end.

(** [setLocalStorage("callsheets", cs)]. *)
Definition setCallsheets (cs : gmap string (list value)) (st : Store)
  : bool * Store :=
  (true, mkStore (customerDatabase st) (productDatabase st) (Some cs)).

(** [callsheets[weekId] = entries] adds or replaces an own property, but
    for [__proto__] on an object without such an own property: there the
    assignment sets the prototype, and the text that is stored does not
    change. *)
Definition saveCallsheetForWeek (weekId : string) (entries : list value)
    (st : Store) : bool * Store :=
  let callsheets := getAllCallsheets st in
  let callsheets :=
    if String.eqb weekId "__proto__"
       && negb (bool_decide (is_Some (callsheets !! weekId)))
    then callsheets
    else <[weekId := entries]> callsheets in
  setCallsheets callsheets st.

(** [None] is a TypeError: an inherited member has no [splice]. *)
Definition removeCallsheetEntry (weekId : string) (index : Z) (st : Store)
  : option (bool * Store) :=
  match getCallsheetForWeek weekId st with
  | Entries entries =>
      if (0 <=? index) && (index <? Z.of_nat (length entries))
      then Some (saveCallsheetForWeek weekId
                   (delete (Z.to_nat index) entries) st)
      else Some (false, st)
  | Member (InheritedFunction len) =>
      if (0 <=? index) && (index <? len) then None else Some (false, st)
  | Member InheritedObject => Some (false, st)
  end.

(** ** Further utilities of the module *)

(** [formatDate] and [formatDateDisplay]: the local calendar fields, month
    and day padded to two digits. *)
Definition formatDate (date : Date) : string :=
  let d := date in
  let year := getFullYear d in
  let month :=
    padStart 2 "0" (NumberToString ((fun m => m + 1) <$> getMonth d)) in
  let day := padStart 2 "0" (NumberToString (getDate d)) in
  (NumberToString year ++ "-" ++ month ++ "-" ++ day)%string.

Definition formatDateDisplay (date : Date) : string :=
  let d := date in
  let day := padStart 2 "0" (NumberToString (getDate d)) in
  let month :=
    padStart 2 "0" (NumberToString ((fun m => m + 1) <$> getMonth d)) in
  let year := getFullYear d in
  (day ++ "/" ++ month ++ "/" ++ NumberToString year)%string.



(** The pattern [/\[([^\]]+)\]/] of [extractProductCode], tried at each
    position from the left. *)

(** [[^\]]*]: the longest run of characters other than the closing bracket,
    and what follows it. *)
Fixpoint class_run (s : string) : string * string :=
  match s with
  | EmptyString => (EmptyString, EmptyString)
  | String c s' =>
      if Ascii.eqb c "]" then (EmptyString, s)
      else let (g, rest) := class_run s' in (String c g, rest)
  end.

(** At an opening bracket the class takes its longest run; a shorter run
    would have to be followed by a closing bracket inside the run. *)
Fixpoint first_bracket_group (s : string) : option string :=
  match s with
  | EmptyString => None
  | String c s' =>
      if Ascii.eqb c "[" then
        let (g, rest) := class_run s' in
        if negb (is_empty g) && negb (is_empty rest) then Some g
        else first_bracket_group s'
      else first_bracket_group s'
  end.

Definition extractProductCode (description : string) : string :=
  if is_empty description then ""%string
  else
    match first_bracket_group description with
    | Some g => g
    | None => ""%string
    end.

(** A string that does not start with white space. *)
Definition starts_clean (s : string) : bool :=
  match s with
  | EmptyString => true
  | String c _ => negb (is_white_space c)
  end.

(** [getCustomerByName]: [null] is [VNull]. *)
Definition getCustomerByName (name : value) (st : Store) : value :=
  let customers := getAllCustomers st in
  match List.find (fun c => strict_eq (getProp c "name") name) customers with
  | Some customer => normalizeCustomer (VObj customer)
  | None => VNull
  end.

(** [getProductByCode] and [getProductByName]: [null] is [None]. *)
Definition getProductByCode (code' : string) (st : Store) : option Product :=
  if is_empty code' then None
  else
    let products := getAllProducts st in
    List.find (fun p => String.eqb (code p) code') products.

Definition getProductByName (name' : string) (st : Store) : option Product :=
  if is_empty name' then None
  else
    let products := getAllProducts st in
    List.find (fun p => String.eqb (name p) name') products.

(** The functions of the current week take the current time, the value of
    [new Date()], as an argument. *)
Definition getCurrentWeekCallsheet (now : Date) (st : Store) : Sheet :=
  let weekId := getWeekIdentifier now in
  getCallsheetForWeek weekId st.

(** [None] is a TypeError: an inherited member has no [push]. *)
Definition addToCurrentCallsheet (entry : value) (now : Date) (st : Store)
  : option (bool * Store) :=
  let weekId := getWeekIdentifier now in
  match getCallsheetForWeek weekId st with
  | Entries entries =>
      let entries := entries ++ [entry] in
      Some (saveCallsheetForWeek weekId entries st)
  | Member _ => None
  end.

(** ** Form validation *)

(** A form, as [validateForm] reads it, answers [querySelector]: for the
    text of a selector it throws (a SyntaxError, for a text that is no
    selector), finds nothing, or finds an element.  Of an element the code
    reads [value], which is absent, a string or, on some elements, a
    number, and [textContent]. *)
Inductive FieldValue : Type :=
| NoValue
| TextValue (s : string)
| NumberValue (truthy : bool).

Record Element := mkElement {
  elementValue : FieldValue;
  textContent : string
}.

Inductive QueryResult : Type :=
| QueryThrows
| QueryNull
| QueryFound (e : Element).

Record Form := mkForm {
  querySelector : string -> QueryResult
}.

Record Validation := mkValidation {
  isValid : bool;
  errors : list string
}.

(** The selectors [`#${fieldId}`] and [`label[for="${fieldId}"]`]. *)
Definition idSelector (fieldId : string) : string :=
  ("#" ++ fieldId)%string.

Definition labelSelector (fieldId : string) : string :=
  ("label[for=" ++ String "034" (fieldId ++ String "034" "]"))%string.

(** One round of the [forEach] of [validateForm]; [None] when the round
    throws: [querySelector] on a text that is no selector, or [trim] on a
    value that is a number. *)
Definition validateField (form : Form) (errors : list string)
    (fieldId : string) : option (list string) :=
  match querySelector form (idSelector fieldId) with
  | QueryThrows => None
  | QueryNull => Some (errors ++ [("Field " ++ fieldId ++ " not found")%string])
  | QueryFound field =>
      let required (errors : list string) :=
        match querySelector form (labelSelector fieldId) with
        | QueryThrows => None
        | QueryNull => Some (errors ++ [(fieldId ++ " is required")%string])
        | QueryFound label =>
            Some (errors ++ [(textContent label ++ " is required")%string])
        end in
      match elementValue field with
      | NoValue => required errors
      | NumberValue false => required errors
      | NumberValue true => None
      | TextValue v =>
          if is_empty v || is_empty (trim v) then required errors
          else Some errors
      end
  end.

Definition validateForm (form : Form) (requiredFields : list string)
  : option Validation :=
  let errors :=
    fold_left (fun errors fieldId =>
                 match errors with
                 | Some errors => validateField form errors fieldId
                 | None => None
                 end)
              requiredFields (Some []) in
  match errors with
  | Some errors => Some (mkValidation (Nat.eqb (length errors) 0) errors)
  | None => None
  end.

(** The two queries of a round do not throw, and the field's value is not
    a number other than zero. *)
Definition field_readable (form : Form) (fieldId : string) : Prop :=
  querySelector form (idSelector fieldId) <> QueryThrows
  /\ querySelector form (labelSelector fieldId) <> QueryThrows
  /\ forall e, querySelector form (idSelector fieldId) = QueryFound e ->
                elementValue e <> NumberValue true.

(** A field passes when it is found with a value that is a text and not
    blank. *)
Definition field_filled (form : Form) (fieldId : string) : Prop :=
  exists e v, querySelector form (idSelector fieldId) = QueryFound e
              /\ elementValue e = TextValue v /\ trim v <> ""%string.

(** * Properties *)

(** ** The calendar *)

Section Calendar.

Lemma DayFromYear_succ y : DayFromYear (y + 1) = DayFromYear y + DaysInYear y.
Proof.
  unfold DayFromYear, DaysInYear.
  repeat match goal with |- context [?a =? ?b] => destruct (Z.eqb_spec a b) end;
  simpl negb; cbv iota; Z.div_mod_to_equations; lia.
Qed.

Lemma DaysInYear_bounds y : 365 <= DaysInYear y <= 366.
Proof. unfold DaysInYear. repeat case_match; lia. Qed.

Lemma DayFromYear_mono a b : a <= b -> DayFromYear a <= DayFromYear b.
Proof. intros H. unfold DayFromYear. Z.div_mod_to_equations. lia. Qed.

Lemma DayFromYear_lt a b : DayFromYear a < DayFromYear b -> a < b.
Proof.
  intros H. destruct (Z_lt_le_dec a b) as [|Hle]; [assumption|].
  apply DayFromYear_mono in Hle. lia.
Qed.

(** [YearFromDay] finds the year whose days contain [day]. *)
Lemma YearFromDay_spec day :
  DayFromYear (YearFromDay day) <= day < DayFromYear (YearFromDay day + 1).
Proof.
  unfold YearFromDay.
  set (y := 1970 + day * 400 / 146097).
  assert (H2 : day < DayFromYear (y + 2)).
  { subst y. unfold DayFromYear. Z.div_mod_to_equations. lia. }
  assert (H0 : DayFromYear (y - 1) <= day).
  { subst y. unfold DayFromYear. Z.div_mod_to_equations. lia. }
  destruct (Z.leb_spec (DayFromYear (y + 1)) day).
  - replace (y + 1 + 1) with (y + 2) by lia. lia.
  - destruct (Z.leb_spec (DayFromYear y) day).
    + lia.
    + replace (y - 1 + 1) with y by lia. lia.
Qed.

(** It is the largest such year, as ECMAScript defines [YearFromTime]. *)
Lemma YearFromDay_largest day y :
  DayFromYear y <= day -> y <= YearFromDay day.
Proof.
  intros H. pose proof (YearFromDay_spec day) as [_ Hu].
  assert (y < YearFromDay day + 1) by (apply DayFromYear_lt; lia). lia.
Qed.

Lemma YearFromDay_mono d1 d2 : d1 <= d2 -> YearFromDay d1 <= YearFromDay d2.
Proof.
  intros H. apply YearFromDay_largest.
  pose proof (YearFromDay_spec d1). lia.
Qed.

Lemma DayWithinYear_range t :
  0 <= DayWithinYear t < DaysInYear (YearFromTime t).
Proof.
  unfold DayWithinYear, YearFromTime.
  pose proof (YearFromDay_spec (Day t)) as H.
  rewrite DayFromYear_succ in H. lia.
Qed.

Lemma MonthFromTime_range t : 0 <= MonthFromTime t <= 11.
Proof. unfold MonthFromTime. repeat case_match; lia. Qed.

Lemma MakeDay_fields t n :
  MakeDay (YearFromTime t) (MonthFromTime t) n = Day t - DateFromTime t + n.
Proof.
  pose proof (MonthFromTime_range t) as Hm.
  unfold MakeDay.
  rewrite (Z.div_small (MonthFromTime t) 12), (Z.mod_small (MonthFromTime t) 12) by lia.
  rewrite Z.add_0_r. fold (InLeapYear t).
  unfold DateFromTime, DayWithinYear. lia.
Qed.

Lemma MakeDay_january y : MakeDay y 0 1 = DayFromYear y.
Proof.
  unfold MakeDay, monthStart.
  change (0 / 12) with 0. change (0 mod 12) with 0. change (0 <=? 0) with true.
  cbv iota. replace (y + 0) with y by lia. lia.
Qed.

Lemma Day_MakeDate day time :
  0 <= time < msPerDay -> Day (MakeDate day time) = day.
Proof.
  intros H. unfold Day, MakeDate, msPerDay in *.
  Z.div_mod_to_equations. lia.
Qed.

Lemma TimeWithinDay_range t : 0 <= TimeWithinDay t < msPerDay.
Proof. unfold TimeWithinDay, msPerDay. apply Z.mod_pos_bound. lia. Qed.

Lemma MakeDate_Day t : MakeDate (Day t) (TimeWithinDay t) = t.
Proof.
  unfold MakeDate, Day, TimeWithinDay, msPerDay. Z.div_mod_to_equations. lia.
Qed.

(** The calendar fields of a time value are those of its day. *)
Lemma YearFromTime_Day t1 t2 : Day t1 = Day t2 -> YearFromTime t1 = YearFromTime t2.
Proof. unfold YearFromTime. congruence. Qed.

Lemma MonthFromTime_Day t1 t2 : Day t1 = Day t2 -> MonthFromTime t1 = MonthFromTime t2.
Proof.
  intros H. unfold MonthFromTime, DayWithinYear, InLeapYear, YearFromTime.
  rewrite H. reflexivity.
Qed.

Lemma DateFromTime_Day t1 t2 : Day t1 = Day t2 -> DateFromTime t1 = DateFromTime t2.
Proof.
  intros H. unfold DateFromTime. rewrite (MonthFromTime_Day _ _ H).
  unfold DayWithinYear, InLeapYear, YearFromTime. rewrite H. reflexivity.
Qed.

Lemma TimeClip_Some t : valid_time t -> TimeClip t = Some t.
Proof.
  unfold valid_time, TimeClip. intros H.
  destruct (Z.ltb_spec 8640000000000000 (Z.abs t)); [lia | reflexivity].
Qed.

Lemma TimeClip_None t : ~ valid_time t -> TimeClip t = None.
Proof.
  unfold valid_time, TimeClip. intros H.
  destruct (Z.ltb_spec 8640000000000000 (Z.abs t)); [reflexivity | lia].
Qed.

Lemma TimeClip_inv t u : TimeClip t = Some u -> u = t /\ valid_time t.
Proof.
  unfold valid_time, TimeClip.
  destruct (Z.ltb_spec 8640000000000000 (Z.abs t)); [discriminate |].
  intros [= <-]. auto.
Qed.

End Calendar.

(** ** Week identifiers *)

Section Weeks.

Lemma mondayOfDay_weekIndex day : mondayOfDay day = 7 * weekIndex day - 3.
Proof. unfold mondayOfDay, weekIndex. Z.div_mod_to_equations. lia. Qed.

Lemma mondayOfDay_range day : mondayOfDay day <= day <= mondayOfDay day + 6.
Proof. unfold mondayOfDay. Z.div_mod_to_equations. lia. Qed.

Lemma WeekDay_monday t : Day t = mondayOfDay (Day t) -> WeekDay t = 1.
Proof. unfold WeekDay, mondayOfDay. Z.div_mod_to_equations. lia. Qed.

(** [getMondayOfWeek] keeps the time of day and moves to the Monday of the
    week, when that is still a time value a Date can hold. *)
Lemma getMondayOfWeek_time t :
  getMondayOfWeek (Some t)
  = TimeClip (MakeDate (mondayOfDay (Day t)) (TimeWithinDay t)).
Proof.
  cbv [getMondayOfWeek getDate getDay setDate fmap option_fmap option_map].
  rewrite MakeDay_fields.
  replace (Day t - DateFromTime t
           + (DateFromTime t - WeekDay t + (if WeekDay t =? 0 then -6 else 1)))
    with (mondayOfDay (Day t)).
  - destruct (TimeClip _) as [u|] eqn:E; [|reflexivity].
    apply TimeClip_inv in E as [-> Hv]. apply TimeClip_Some, Hv.
  - unfold WeekDay, mondayOfDay.
    destruct (Z.eqb_spec ((Day t + 4) mod 7) 0); Z.div_mod_to_equations; lia.
Qed.

(** Whether the Monday can be held does not depend on the time of day: the
    first day a Date can hold is a Tuesday. *)
Lemma monday_valid t :
  valid_time t ->
  valid_time (MakeDate (mondayOfDay (Day t)) (TimeWithinDay t))
  <-> -100000000 < mondayOfDay (Day t).
Proof.
  pose proof (TimeWithinDay_range t) as Hr.
  pose proof (mondayOfDay_range (Day t)) as Hm.
  pose proof (MakeDate_Day t) as Ht.
  unfold valid_time, MakeDate, msPerDay in *.
  assert (mondayOfDay (Day t) <> -100000000)
    by (unfold mondayOfDay; Z.div_mod_to_equations; lia).
  intros Hv. split; intros H1; lia.
Qed.

Lemma getWeekNumber_Day t1 t2 :
  Day t1 = Day t2 -> getWeekNumber (Some t1) = getWeekNumber (Some t2).
Proof.
  intros H. unfold getWeekNumber.
  cbv [getFullYear getMonth getDate fmap option_fmap option_map].
  rewrite (YearFromTime_Day _ _ H), (MonthFromTime_Day _ _ H),
    (DateFromTime_Day _ _ H). reflexivity.
Qed.

(** The identifier is the same on every day of a Monday-to-Sunday span. *)
Lemma getWeekIdentifier_same_week t1 t2 :
  valid_time t1 -> valid_time t2 -> same_week t1 t2 ->
  getWeekIdentifier (Some t1) = getWeekIdentifier (Some t2).
Proof.
  intros H1 H2 Hw. unfold getWeekIdentifier. cbv zeta.
  rewrite !getMondayOfWeek_time.
  assert (Hm : mondayOfDay (Day t1) = mondayOfDay (Day t2)).
  { rewrite !mondayOfDay_weekIndex. unfold same_week in Hw. lia. }
  pose proof (monday_valid t1 H1) as V1. pose proof (monday_valid t2 H2) as V2.
  rewrite Hm in V1 |- *.
  destruct (Z_lt_le_dec (-100000000) (mondayOfDay (Day t2))) as [Hlt|Hge].
  - rewrite !TimeClip_Some by tauto.
    assert (Hd : Day (MakeDate (mondayOfDay (Day t2)) (TimeWithinDay t1))
                 = Day (MakeDate (mondayOfDay (Day t2)) (TimeWithinDay t2))).
    { rewrite !Day_MakeDate by apply TimeWithinDay_range. reflexivity. }
    rewrite (getWeekNumber_Day _ _ Hd).
    cbv [getFullYear fmap option_fmap option_map].
    rewrite (YearFromTime_Day _ _ Hd). reflexivity.
  - rewrite !TimeClip_None by (intros Hv; apply V1 in Hv || apply V2 in Hv; lia).
    reflexivity.
Qed.

End Weeks.

Section WeekNumbers.

Lemma DateUTC_plain y m dt :
  ~ (0 <= y <= 99) ->
  DateUTC (Some y) (Some m) (Some dt) = TimeClip (MakeDate (MakeDay y m dt) 0).
Proof.
  intros H. unfold DateUTC.
  destruct (Z.leb_spec 0 y), (Z.leb_spec y 99); simpl andb; cbv iota;
    try reflexivity; lia.
Qed.

Lemma valid_midnight day :
  -100000000 <= day <= 100000000 -> valid_time (MakeDate day 0).
Proof. unfold valid_time, MakeDate, msPerDay. lia. Qed.

Lemma Day_midnight day : Day (MakeDate day 0) = day.
Proof. apply Day_MakeDate. unfold msPerDay. lia. Qed.

Lemma TimeWithinDay_midnight day : TimeWithinDay (MakeDate day 0) = 0.
Proof.
  unfold TimeWithinDay, MakeDate, msPerDay. Z.div_mod_to_equations. lia.
Qed.

Lemma thursdayOfDay_WeekDay t :
  Day t + 4 - (if WeekDay t =? 0 then 7 else WeekDay t) = thursdayOfDay (Day t).
Proof.
  unfold thursdayOfDay, mondayOfDay, WeekDay.
  destruct (Z.eqb_spec ((Day t + 4) mod 7) 0); Z.div_mod_to_equations; lia.
Qed.

(** Days of the years 999 to 10000 are far inside the range of a Date. *)
Lemma year_bounds_day day :
  999 <= YearFromDay day <= 10000 -> -1000000 <= day <= 3000000.
Proof.
  intros [Hl Hu]. pose proof (YearFromDay_spec day) as [H1 H2].
  apply DayFromYear_mono in Hl.
  assert (Hu' : YearFromDay day + 1 <= 10001) by lia.
  apply DayFromYear_mono in Hu'.
  change (DayFromYear 999) with (-354650) in Hl.
  change (DayFromYear 10001) with 2933263 in Hu'. lia.
Qed.

(** For a date of the years 1000 to 9999, [getWeekNumber] is the ISO week
    number: the days from 1 January of the Thursday's year to the Thursday
    of the week, counted in weeks. *)
Lemma getWeekNumber_iso t :
  1000 <= YearFromTime t <= 9999 ->
  getWeekNumber (Some t)
  = Some (ceil_div (thursdayOfDay (Day t)
                    - DayFromYear (YearFromDay (thursdayOfDay (Day t))) + 1) 7).
Proof.
  intros Hy. unfold getWeekNumber.
  cbv [getFullYear getMonth getDate getUTCFullYear getUTCDate getUTCDay
       fmap option_fmap option_map].
  rewrite DateUTC_plain by lia. rewrite MakeDay_fields.
  replace (Day t - DateFromTime t + DateFromTime t) with (Day t) by lia.
  assert (Hd : -1000000 <= Day t <= 3000000)
    by (apply year_bounds_day; unfold YearFromTime in Hy; lia).
  rewrite TimeClip_Some by (apply valid_midnight; lia).
  cbv [setUTCDate]. rewrite MakeDay_fields, TimeWithinDay_midnight.
  set (d0 := MakeDate (Day t) 0).
  assert (Hd0 : Day d0 = Day t) by apply Day_midnight.
  assert (Hw : WeekDay d0 = WeekDay t) by (unfold WeekDay; rewrite Hd0; reflexivity).
  rewrite Hw, Hd0.
  replace (Day t - DateFromTime d0 + (DateFromTime d0 + 4
             - (if WeekDay t =? 0 then 7 else WeekDay t)))
    with (thursdayOfDay (Day t)) by (rewrite <- thursdayOfDay_WeekDay; lia).
  set (thu := thursdayOfDay (Day t)).
  assert (Hthu : Day t - 3 <= thu <= Day t + 3).
  { subst thu. unfold thursdayOfDay. pose proof (mondayOfDay_range (Day t)). lia. }
  rewrite TimeClip_Some by (apply valid_midnight; lia).
  unfold YearFromTime at 1. rewrite Day_midnight.
  assert (Hy' : 999 <= YearFromDay thu <= 10000).
  { unfold YearFromTime in Hy.
    pose proof (YearFromDay_spec (Day t)) as [S1 S2].
    pose proof (YearFromDay_spec thu) as [T1 T2].
    pose proof (DayFromYear_succ (YearFromDay (Day t))) as E1.
    pose proof (DayFromYear_succ (YearFromDay thu)) as E2.
    pose proof (DaysInYear_bounds (YearFromDay (Day t))).
    pose proof (DaysInYear_bounds (YearFromDay thu)).
    split.
    - assert (YearFromDay (Day t) - 1 <= YearFromDay thu); [|lia].
      apply YearFromDay_largest.
      pose proof (DayFromYear_succ (YearFromDay (Day t) - 1)) as E3.
      pose proof (DaysInYear_bounds (YearFromDay (Day t) - 1)).
      replace (YearFromDay (Day t) - 1 + 1) with (YearFromDay (Day t)) in E3 by lia.
      lia.
    - assert (YearFromDay thu < YearFromDay (Day t) + 1 + 1); [|lia].
      apply DayFromYear_lt.
      pose proof (DayFromYear_succ (YearFromDay (Day t) + 1)) as E3.
      pose proof (DaysInYear_bounds (YearFromDay (Day t) + 1)).
      lia. }
  clearbody thu. rewrite DateUTC_plain by lia. rewrite MakeDay_january.
  assert (Hs : -2000000 <= DayFromYear (YearFromDay thu) <= 4000000).
  { pose proof (YearFromDay_spec thu) as [T1 T2].
    pose proof (DayFromYear_succ (YearFromDay thu)) as E2.
    pose proof (DaysInYear_bounds (YearFromDay thu)). lia. }
  rewrite TimeClip_Some by (apply valid_midnight; lia).
  f_equal. f_equal. unfold MakeDate, msPerDay.
  Z.div_mod_to_equations. lia.
Qed.

Lemma ceil_div_week n : 0 <= n <= 365 -> 1 <= ceil_div (n + 1) 7 <= 53.
Proof. intros H. unfold ceil_div. Z.div_mod_to_equations. lia. Qed.

Lemma getWeekNumber_range t :
  1000 <= YearFromTime t <= 9999 ->
  exists w, getWeekNumber (Some t) = Some w /\ 1 <= w <= 53.
Proof.
  intros Hy. rewrite getWeekNumber_iso by assumption.
  eexists; split; [reflexivity|]. apply ceil_div_week.
  generalize (thursdayOfDay (Day t)). intros thu.
  pose proof (YearFromDay_spec thu) as [T1 T2].
  pose proof (DayFromYear_succ (YearFromDay thu)) as E2.
  pose proof (DaysInYear_bounds (YearFromDay thu)). lia.
Qed.

End WeekNumbers.

(** ** Numbers as text *)

Section Digits.

Lemma is_digit_digit_char k : 0 <= k <= 9 -> is_digit (digit_char k) = true.
Proof.
  intros H. unfold is_digit, digit_char.
  rewrite nat_ascii_embedding by lia.
  apply andb_true_iff. split; apply Nat.leb_le; lia.
Qed.

Lemma log2_fuel n k : 2 ^ k <= n -> 0 <= k -> (Z.to_nat k <= Z.to_nat (Z.log2 n))%nat.
Proof.
  intros H Hk. apply Z2Nat.inj_le; [lia | apply Z.log2_nonneg |].
  rewrite <- (Z.log2_pow2 k) by lia. apply Z.log2_le_mono. assumption.
Qed.

Lemma NumberToString_4 n :
  1000 <= n <= 9999 ->
  NumberToString (Some n)
  = String (digit_char (n / 1000)) (String (digit_char (n / 100 mod 10))
      (String (digit_char (n / 10 mod 10)) (String (digit_char (n mod 10)) ""))).
Proof.
  intros H. unfold NumberToString.
  destruct (Z.ltb_spec n 0); [lia|].
  pose proof (log2_fuel n 3 ltac:(lia) ltac:(lia)) as Hf.
  change (Z.to_nat 3) with 3%nat in Hf.
  destruct (Z.to_nat (Z.log2 n)) as [|[|[|f]]]; try lia.
  cbn [digits_of].
  destruct (Z.ltb_spec n 10); [lia|].
  destruct (Z.ltb_spec (n / 10) 10); [Z.div_mod_to_equations; lia|].
  destruct (Z.ltb_spec (n / 10 / 10) 10);
    [rewrite Z.div_div in * by lia; Z.div_mod_to_equations; lia|].
  destruct (Z.ltb_spec (n / 10 / 10 / 10) 10); [|Z.div_mod_to_equations; lia].
  rewrite !Z.div_div by lia. change (10 * (10 * 10)) with 1000. change (10 * 10) with 100.
  rewrite (Z.mod_small (n / 1000) 10) by (Z.div_mod_to_equations; lia).
  reflexivity.
Qed.

Lemma padStart_2 n :
  0 <= n <= 99 ->
  padStart 2 "0" (NumberToString (Some n))
  = String (digit_char (n / 10)) (String (digit_char (n mod 10)) "").
Proof.
  intros H. unfold NumberToString.
  destruct (Z.ltb_spec n 0); [lia|].
  destruct (Z.ltb_spec n 10) as [Hs|Hb].
  - cbn [digits_of]. destruct (Z.ltb_spec n 10); [|lia].
    unfold padStart. cbn.
    replace (n / 10) with 0 by (Z.div_mod_to_equations; lia). reflexivity.
  - pose proof (log2_fuel n 1 ltac:(lia) ltac:(lia)) as Hf.
    change (Z.to_nat 1) with 1%nat in Hf.
    destruct (Z.to_nat (Z.log2 n)) as [|f]; try lia.
    cbn [digits_of].
    destruct (Z.ltb_spec n 10); [lia|].
    destruct (Z.ltb_spec (n / 10) 10); [|Z.div_mod_to_equations; lia].
    unfold padStart. cbn.
    rewrite (Z.mod_small (n / 10) 10) by (Z.div_mod_to_equations; lia).
    reflexivity.
Qed.

End Digits.

(** ** The week identifier of a date *)

Section WeekIdentifier.

(** The shape of the identifier when the Monday of the week lies in the
    years 1000 to 9999: the Monday's calendar year and the ISO week number
    of the week, two digits. *)
Lemma getWeekIdentifier_shape t :
  valid_time t ->
  1000 <= YearFromDay (mondayOfDay (Day t)) <= 9999 ->
  exists w,
    1 <= w <= 53 /\
    getWeekIdentifier (Some t)
    = (NumberToString (Some (YearFromDay (mondayOfDay (Day t)))) ++ "-W"
       ++ String (digit_char (w / 10)) (String (digit_char (w mod 10)) ""))%string.
Proof.
  intros Hv Hy. unfold getWeekIdentifier. cbv zeta.
  rewrite getMondayOfWeek_time.
  set (m := MakeDate (mondayOfDay (Day t)) (TimeWithinDay t)).
  assert (Hm : Day m = mondayOfDay (Day t))
    by (apply Day_MakeDate, TimeWithinDay_range).
  assert (Hb : -1000000 <= mondayOfDay (Day t) <= 3000000)
    by (apply year_bounds_day; lia).
  rewrite TimeClip_Some by (apply monday_valid; [assumption | lia]).
  assert (Hym : YearFromTime m = YearFromDay (mondayOfDay (Day t)))
    by (unfold YearFromTime; rewrite Hm; reflexivity).
  destruct (getWeekNumber_range m) as (w & Hw & Hr); [lia|].
  exists w. split; [assumption|].
  rewrite Hw. cbv [getFullYear fmap option_fmap option_map]. rewrite Hym.
  rewrite padStart_2 by lia. reflexivity.
Qed.

Lemma matches_week_pattern_shape y w :
  1000 <= y <= 9999 -> 1 <= w <= 53 ->
  matches_week_pattern
    (NumberToString (Some y) ++ "-W"
     ++ String (digit_char (w / 10)) (String (digit_char (w mod 10)) ""))%string
  = true.
Proof.
  intros Hy Hw. rewrite NumberToString_4 by assumption.
  cbv [String.append matches_week_pattern].
  rewrite !is_digit_digit_char by (Z.div_mod_to_equations; lia).
  reflexivity.
Qed.

End WeekIdentifier.

(** C2, for the years of four digits: for every valid date whose week's
    Monday lies in the calendar years 1000 to 9999, [getWeekIdentifier] matches
    [^\d{4}-W\d{2}$], and it returns the same string for every valid date of
    the same Monday-to-Sunday span. *)
Theorem getWeekIdentifier_pattern_and_span (t : Z) :
  valid_time t ->
  1000 <= YearFromDay (mondayOfDay (Day t)) <= 9999 ->
  matches_week_pattern (getWeekIdentifier (Some t)) = true
  /\ forall t', valid_time t' -> same_week t t' ->
       getWeekIdentifier (Some t') = getWeekIdentifier (Some t).
Proof.
  intros Hv Hy. split.
  - destruct (getWeekIdentifier_shape t Hv Hy) as (w & Hw & ->).
    apply matches_week_pattern_shape; assumption.
  - intros t' Hv' Hs. symmetry. apply getWeekIdentifier_same_week; assumption.
Qed.

Lemma getWeekIdentifier_pattern_and_span_witness :
  matches_week_pattern (getWeekIdentifier (civil 2026 11 2 15)) = true
  /\ forall t', valid_time t' -> same_week 1793631600000 t' ->
       getWeekIdentifier (Some t') = getWeekIdentifier (civil 2026 11 2 15).
Proof.
  apply (getWeekIdentifier_pattern_and_span 1793631600000).
  - unfold valid_time. lia.
  - vm_compute. split; discriminate.
Defined.

(** C2 does not hold of every valid date: 3 January 10000 is a date a Date
    object can hold, and its identifier has a year of five digits. *)
Lemma getWeekIdentifier_pattern_counterexample :
  ~ (forall t, valid_time t ->
       matches_week_pattern (getWeekIdentifier (Some t)) = true).
Proof.
  intros H. specialize (H 253402473600000).
  assert (Hv : valid_time 253402473600000) by (unfold valid_time; lia).
  specialize (H Hv). vm_compute in H. discriminate.
Qed.

Example getWeekIdentifier_year_10000 :
  civil 10000 1 3 0 = Some 253402473600000
  /\ getWeekIdentifier (civil 10000 1 3 0) = "10000-W01"%string.
Proof. vm_compute. split; reflexivity. Qed.

(** The year of the identifier is the calendar year of the Monday. *)
Lemma getWeekIdentifier_year_of_monday (t : Z) (m : Z) :
  getMondayOfWeek (Some t) = Some m ->
  exists rest,
    getWeekIdentifier (Some t)
    = (NumberToString (Some (YearFromTime m)) ++ "-W" ++ rest)%string.
Proof.
  intros H. unfold getWeekIdentifier. cbv zeta. rewrite H.
  eexists. reflexivity.
Qed.

(** C1: the year of the identifier is not the ISO week-numbering year.
    Monday 30 December 2024 opens ISO week 1 of 2025 (its Thursday is
    2 January 2025); the identifier pairs that week number with the
    Monday's calendar year, 2024, and so repeats the identifier of the week
    of 1 January 2024. *)
Theorem getWeekIdentifier_year_at_2024_12_30 :
  getWeekIdentifier (civil 2024 12 30 12) = "2024-W01"%string
  /\ year_component (getWeekIdentifier (civil 2024 12 30 12)) = "2024"%string
  /\ NumberToString (Some (isoWeekYear 1735560000000)) = "2025"%string
  /\ civil 2024 12 30 12 = Some 1735560000000
  /\ getWeekIdentifier (civil 2024 1 1 12) = "2024-W01"%string.
Proof. vm_compute. repeat split; reflexivity. Qed.

(** C3: 1 January 2024, a Monday, has the identifier 2024-W01, and
    1 January 2023, a Sunday, has 2022-W52, at any time of the day. *)
Theorem getWeekIdentifier_new_year_days (t1 t2 : Z) :
  Day t1 = MakeDay 2024 0 1 ->
  Day t2 = MakeDay 2023 0 1 ->
  WeekDay t1 = 1 /\ getWeekIdentifier (Some t1) = "2024-W01"%string
  /\ WeekDay t2 = 0 /\ getWeekIdentifier (Some t2) = "2022-W52"%string.
Proof.
  intros H1 H2.
  change (MakeDay 2024 0 1) with 19723 in H1.
  change (MakeDay 2023 0 1) with 19358 in H2.
  pose proof (MakeDate_Day t1) as E1. pose proof (TimeWithinDay_range t1) as R1.
  pose proof (MakeDate_Day t2) as E2. pose proof (TimeWithinDay_range t2) as R2.
  unfold MakeDate, msPerDay in *.
  assert (V1 : valid_time t1) by (unfold valid_time; lia).
  assert (V2 : valid_time t2) by (unfold valid_time; lia).
  repeat split.
  - unfold WeekDay. rewrite H1. reflexivity.
  - rewrite (getWeekIdentifier_same_week t1 (MakeDate 19723 0) V1).
    + vm_compute. reflexivity.
    + unfold valid_time. vm_compute. discriminate.
    + unfold same_week. rewrite Day_midnight, H1. reflexivity.
  - unfold WeekDay. rewrite H2. reflexivity.
  - rewrite (getWeekIdentifier_same_week t2 (MakeDate 19358 0) V2).
    + vm_compute. reflexivity.
    + unfold valid_time. vm_compute. discriminate.
    + unfold same_week. rewrite Day_midnight, H2. reflexivity.
Qed.

Lemma getWeekIdentifier_new_year_days_witness :
  WeekDay 1704103200000 = 1
  /\ getWeekIdentifier (Some 1704103200000) = "2024-W01"%string
  /\ WeekDay 1672614000000 = 0
  /\ getWeekIdentifier (Some 1672614000000) = "2022-W52"%string.
Proof.
  apply (getWeekIdentifier_new_year_days 1704103200000 1672614000000);
    vm_compute; reflexivity.
Defined.

(** ** Product display strings *)

Section ProductStrings.

Local Open Scope string_scope.

Lemma append_cons c (s t : string) : String c s ++ t = String c (s ++ t).
Proof. reflexivity. Qed.

Lemma append_empty_r (s : string) : s ++ "" = s.
Proof. induction s as [|c s IH]; [reflexivity|]. rewrite append_cons, IH. reflexivity. Qed.

Lemma append_snoc (s : string) c (t : string) :
  (s ++ String c "") ++ t = s ++ String c t.
Proof.
  induction s as [|d s IH]; [reflexivity|]. rewrite !append_cons, IH. reflexivity.
Qed.

Lemma is_empty_true (s : string) : is_empty s = true -> s = "".
Proof. destruct s; [reflexivity | discriminate]. Qed.

Lemma is_empty_append (s : string) c (t : string) : is_empty (s ++ String c t) = false.
Proof. destruct s; reflexivity. Qed.

(** The class of the second group stops at the first closing bracket. *)
Lemma class_then_close_code (g : string) :
  has_char "]" g = false -> class_then_close (g ++ "]") = Some g.
Proof.
  induction g as [|c g IH]; [reflexivity|].
  cbn [has_char]. intros H. apply orb_false_iff in H as [Hc Hg].
  rewrite append_cons. cbn [class_then_close]. rewrite Hc, (IH Hg). reflexivity.
Qed.

Lemma class_then_close_inside (s : string) c (t : string) :
  has_char "]" s = true -> class_then_close (s ++ String c t) = None.
Proof.
  induction s as [|d s IH]; [discriminate|].
  cbn [has_char]. intros H. rewrite append_cons. cbn [class_then_close].
  destruct (Ascii.eqb d "]").
  - rewrite is_empty_append. reflexivity.
  - rewrite (IH H). reflexivity.
Qed.

Lemma class_then_close_ends (s g : string) :
  class_then_close s = Some g -> ends_with_close s = true.
Proof.
  revert g. induction s as [|c s IH]; [discriminate|].
  intros g. cbn [class_then_close ends_with_close].
  destruct (Ascii.eqb c "]") eqn:Hc.
  - destruct (is_empty s); [reflexivity | discriminate].
  - destruct (class_then_close s) as [g'|] eqn:Hg; [|discriminate].
    intros _. destruct s; [discriminate|]. cbn [is_empty]. eapply IH. reflexivity.
Qed.

Lemma white_space_not_bracket c : is_white_space c = true -> Ascii.eqb c "[" = false.
Proof.
  intros H. destruct (Ascii.eqb_spec c "[") as [->|]; [discriminate | reflexivity].
Qed.

Lemma trimEnd_cons c (s : string) :
  trimEnd (String c s) = String c s -> trimEnd s = s.
Proof.
  cbn [trimEnd]. destruct (is_white_space c && is_empty (trimEnd s));
    congruence.
Qed.

Lemma trimEnd_white_space c (s : string) :
  trimEnd (String c s) = String c s -> is_white_space c = true -> s <> "".
Proof.
  intros H Hc ->. cbn in H. rewrite Hc in H. discriminate.
Qed.

(** Inside a name without trailing white space and with its brackets
    closed, the bracketed tail of the pattern does not match. *)
Lemma space_then_bracket_inside (s : string) c (t : string) :
  s <> "" -> trimEnd s = s -> brackets_closed s = true ->
  space_then_bracket (s ++ String c t) = None.
Proof.
  induction s as [|d s IH]; [congruence|].
  intros _ Ht Hb. pose proof (trimEnd_cons _ _ Ht) as Ht'.
  cbn [brackets_closed] in Hb. apply andb_true_iff in Hb as [Hd Hb].
  rewrite append_cons.
  assert (Hg : is_white_space d = false \/ s <> "" ->
               bracket_group (String d (s ++ String c t)) = None).
  { intros _. cbn [bracket_group]. destruct (Ascii.eqb d "["); [|reflexivity].
    rewrite class_then_close_inside by assumption. reflexivity. }
  cbn [space_then_bracket]. destruct (is_white_space d) eqn:Hw.
  - assert (Hs : s <> "") by (eapply trimEnd_white_space; eassumption).
    rewrite (IH Hs Ht' Hb). apply Hg. right. assumption.
  - apply Hg. left. reflexivity.
Qed.

Lemma space_then_bracket_tail (g : string) :
  g <> "" -> has_char "]" g = false ->
  space_then_bracket (" [" ++ g ++ "]") = Some g.
Proof.
  intros Hne Hg.
  change (" [" ++ g ++ "]") with (String " " (String "[" (g ++ "]"))).
  cbn [space_then_bracket].
  change (is_white_space " ") with true. change (is_white_space "[") with false.
  cbv iota. cbn [bracket_group]. change (Ascii.eqb "[" "[") with true. cbv iota.
  rewrite class_then_close_code by assumption.
  destruct g; [congruence | reflexivity].
Qed.

(** The lazy first group stops exactly where the name ends. *)
Lemma lazy_group_name (before s g : string) :
  trimEnd s = s -> brackets_closed s = true -> has_line_terminator s = false ->
  g <> "" -> has_char "]" g = false ->
  lazy_group before (s ++ " [" ++ g ++ "]") = Some (before ++ s, g).
Proof.
  intros Ht Hb Hl Hne Hg. revert before.
  induction s as [|c s IH]; intros before.
  - change ("" ++ " [" ++ g ++ "]") with (" [" ++ g ++ "]").
    destruct (" [" ++ g ++ "]") as [|c0 r] eqn:E; [discriminate|].
    cbn [lazy_group]. rewrite <- E, space_then_bracket_tail by assumption.
    rewrite append_empty_r. reflexivity.
  - cbn [has_line_terminator] in Hl. apply orb_false_iff in Hl as [Hc Hl].
    pose proof Hb as Hb0. cbn [brackets_closed] in Hb.
    apply andb_true_iff in Hb as [_ Hb].
    rewrite append_cons. cbn [lazy_group].
    change (String c (s ++ " [" ++ g ++ "]"))
      with (String c s ++ String " " ("[" ++ g ++ "]")).
    rewrite space_then_bracket_inside by (assumption || discriminate).
    rewrite Hc.
    change (s ++ String " " ("[" ++ g ++ "]")) with (s ++ " [" ++ g ++ "]").
    rewrite IH by (assumption || eapply trimEnd_cons; eassumption).
    rewrite append_snoc. reflexivity.
Qed.

End ProductStrings.

Section ProductRoundTrip.

Local Open Scope string_scope.

Lemma trimStart_length (s : string) :
  (String.length (trimStart s) <= String.length s)%nat.
Proof.
  induction s as [|c s IH]; [reflexivity|].
  cbn [trimStart]. destruct (is_white_space c); cbn [String.length]; lia.
Qed.

Lemma trimEnd_length (s : string) :
  (String.length (trimEnd s) <= String.length s)%nat.
Proof.
  induction s as [|c s IH]; [reflexivity|].
  cbn [trimEnd]. destruct (is_white_space c && is_empty (trimEnd s));
    cbn [String.length]; lia.
Qed.

(** A string [trim] leaves alone has no white space at its end. *)
Lemma trim_fixed_trimEnd (s : string) : trim s = s -> trimEnd s = s.
Proof.
  unfold trim. destruct s as [|c s]; [reflexivity|].
  cbn [trimStart]. destruct (is_white_space c); [|tauto].
  intros H. apply (f_equal String.length) in H.
  pose proof (trimEnd_length (trimStart s)). pose proof (trimStart_length s).
  cbn [String.length] in H. lia.
Qed.

Lemma bracket_group_ends (s g : string) :
  bracket_group s = Some g -> ends_with_close s = true.
Proof.
  destruct s as [|c s]; [discriminate|]. cbn [bracket_group ends_with_close].
  destruct (Ascii.eqb c "["); [|discriminate].
  destruct (class_then_close s) as [g'|] eqn:E; [|discriminate].
  intros _. destruct s; [discriminate|]. cbn [is_empty].
  eapply class_then_close_ends. eassumption.
Qed.

Lemma space_then_bracket_ends (s g : string) :
  space_then_bracket s = Some g -> ends_with_close s = true.
Proof.
  revert g. induction s as [|c s IH]; [discriminate|].
  intros g. cbn [space_then_bracket].
  destruct (is_white_space c).
  - destruct (space_then_bracket s) as [g'|] eqn:E.
    + intros _. cbn [ends_with_close]. destruct s; [discriminate|].
      cbn [is_empty]. eapply IH. reflexivity.
    + apply bracket_group_ends.
  - apply bracket_group_ends.
Qed.

Lemma lazy_group_ends (before rest : string) r :
  lazy_group before rest = Some r -> ends_with_close rest = true.
Proof.
  revert before. induction rest as [|c rest IH]; intros before.
  - cbn. discriminate.
  - cbn [lazy_group]. destruct (space_then_bracket (String c rest)) eqn:E.
    + intros _. eapply space_then_bracket_ends. eassumption.
    + destruct (is_line_terminator c); [discriminate|].
      intros H. apply IH in H. cbn [ends_with_close].
      destruct rest; [discriminate|]. assumption.
Qed.

(** The pattern only matches strings that end with a closing bracket. *)
Lemma match_product_pattern_ends (s : string) r :
  match_product_pattern s = Some r -> ends_with_close s = true.
Proof.
  destruct s as [|c rest]; [discriminate|]. cbn [match_product_pattern].
  destruct (is_line_terminator c); [discriminate|].
  intros H. apply lazy_group_ends in H. cbn [ends_with_close].
  destruct rest; [discriminate|]. assumption.
Qed.

Lemma parseProductString_bare (s : string) :
  ends_with_close s = false -> parseProductString s = mkProduct (trim s) "".
Proof.
  intros H. unfold parseProductString.
  destruct s as [|c s]; [reflexivity|]. cbn [is_empty].
  destruct (match_product_pattern (String c s)) as [[g1 g2]|] eqn:E;
    [|reflexivity].
  apply match_product_pattern_ends in E. congruence.
Qed.

Lemma match_product_pattern_display (n g : string) :
  trim n = n -> has_line_terminator n = false -> brackets_closed n = true ->
  g <> "" -> has_char "]" g = false ->
  exists g1, match_product_pattern (n ++ " [" ++ g ++ "]") = Some (g1, g)
             /\ trim g1 = n.
Proof.
  intros Ht Hl Hb Hne Hg. destruct n as [|c n].
  - exists " ". split; [|reflexivity].
    change ("" ++ " [" ++ g ++ "]") with (String " " ("" ++ "[" ++ g ++ "]")).
    cbn [match_product_pattern]. change (is_line_terminator " ") with false.
    cbv iota.
    destruct ("" ++ "[" ++ g ++ "]") as [|c0 r] eqn:E; [discriminate|].
    cbn [lazy_group]. rewrite <- E.
    change ("" ++ "[" ++ g ++ "]") with (String "[" (g ++ "]")).
    cbn [space_then_bracket bracket_group].
    change (is_white_space "[") with false. change (Ascii.eqb "[" "[") with true.
    cbv iota. rewrite class_then_close_code by assumption.
    destruct g; [congruence | reflexivity].
  - exists (String c n). split; [|assumption].
    apply trim_fixed_trimEnd in Ht. apply trimEnd_cons in Ht.
    cbn [has_line_terminator] in Hl. apply orb_false_iff in Hl as [Hc Hl].
    cbn [brackets_closed] in Hb. apply andb_true_iff in Hb as [_ Hb].
    rewrite append_cons. cbn [match_product_pattern]. rewrite Hc.
    rewrite lazy_group_name by assumption. reflexivity.
Qed.

Lemma class_then_close_single (s : string) :
  class_then_close s = Some "" -> s = "]".
Proof.
  destruct s as [|c s]; [discriminate|]. cbn [class_then_close].
  destruct (Ascii.eqb_spec c "]") as [->|Hc].
  - destruct s; [reflexivity | discriminate].
  - destruct (class_then_close s); discriminate.
Qed.

Lemma class_then_close_body (s g : string) :
  class_then_close s = Some g -> g <> "" -> bracket_body s = true.
Proof.
  revert g. induction s as [|c s IH]; [discriminate|].
  intros g. cbn [class_then_close bracket_body].
  destruct (Ascii.eqb c "]") eqn:Hc.
  - destruct (is_empty s); [|discriminate]. intros [= <-] H. congruence.
  - destruct (class_then_close s) as [g'|] eqn:E; [|discriminate].
    intros _ _. cbn [negb andb]. destruct g' as [|c' g'].
    + apply class_then_close_single in E. subst s. reflexivity.
    + rewrite (IH _ eq_refl) by discriminate. apply orb_true_r.
Qed.

Lemma bracket_group_suffix (s g : string) :
  bracket_group s = Some g -> has_bracket_suffix s = true.
Proof.
  destruct s as [|c s]; [discriminate|].
  cbn [bracket_group has_bracket_suffix].
  destruct (Ascii.eqb c "["); [|discriminate].
  destruct (class_then_close s) as [g'|] eqn:E; [|discriminate].
  destruct g' as [|c' g']; [discriminate|]. intros _.
  rewrite (class_then_close_body _ _ E) by discriminate. reflexivity.
Qed.

Lemma space_then_bracket_suffix (s g : string) :
  space_then_bracket s = Some g -> has_bracket_suffix s = true.
Proof.
  revert g. induction s as [|c s IH]; [discriminate|].
  intros g. cbn [space_then_bracket]. destruct (is_white_space c).
  - destruct (space_then_bracket s) as [g'|] eqn:E.
    + intros _. cbn [has_bracket_suffix]. rewrite (IH _ eq_refl).
      apply orb_true_r.
    + apply bracket_group_suffix.
  - apply bracket_group_suffix.
Qed.

Lemma lazy_group_suffix (before rest : string) r :
  lazy_group before rest = Some r -> has_bracket_suffix rest = true.
Proof.
  revert before. induction rest as [|c rest IH]; intros before.
  - cbn. discriminate.
  - cbn [lazy_group]. destruct (space_then_bracket (String c rest)) eqn:E.
    + intros _. eapply space_then_bracket_suffix. eassumption.
    + destruct (is_line_terminator c); [discriminate|].
      intros H. apply IH in H. cbn [has_bracket_suffix]. rewrite H.
      apply orb_true_r.
Qed.

(** The pattern only matches strings with a trailing bracket suffix. *)
Lemma match_product_pattern_suffix (s : string) r :
  match_product_pattern s = Some r -> has_bracket_suffix s = true.
Proof.
  destruct s as [|c rest]; [discriminate|]. cbn [match_product_pattern].
  destruct (is_line_terminator c); [discriminate|].
  intros H. apply lazy_group_suffix in H. cbn [has_bracket_suffix].
  rewrite H. apply orb_true_r.
Qed.

Lemma parseProductString_no_suffix (s : string) :
  has_bracket_suffix s = false -> parseProductString s = mkProduct (trim s) "".
Proof.
  intros H. unfold parseProductString.
  destruct s as [|c s]; [reflexivity|]. cbn [is_empty].
  destruct (match_product_pattern (String c s)) as [[g1 g2]|] eqn:E;
    [|reflexivity].
  apply match_product_pattern_suffix in E. congruence.
Qed.

(** What the two predicates say. *)
Lemma bracket_body_spec (s : string) :
  bracket_body s = true
  <-> exists g, s = g ++ "]" /\ g <> "" /\ has_char "]" g = false.
Proof.
  induction s as [|c s IH]; cbn [bracket_body].
  - split; [discriminate|]. intros ([|c g] & E & Hg & _); [congruence|].
    discriminate.
  - rewrite andb_true_iff, orb_true_iff, IH, negb_true_iff. split.
    + intros [Hc [Hs|(g & -> & Hg & Hn)]].
      * destruct s as [|c' [|c'' s]]; try discriminate.
        apply Ascii.eqb_eq in Hs. subst c'. exists (String c "").
        repeat split; [discriminate|]. cbn [has_char]. rewrite Hc. reflexivity.
      * exists (String c g). repeat split; [discriminate|].
        cbn [has_char]. rewrite Hc, Hn. reflexivity.
    + intros ([|c0 g] & E & Hg & Hn); [congruence|].
      rewrite append_cons in E. injection E as <- ->.
      cbn [has_char] in Hn. apply orb_false_iff in Hn as [Hc Hn].
      split; [assumption|]. destruct g as [|c1 g].
      * left. reflexivity.
      * right. exists (String c1 g). repeat split; [discriminate | assumption].
Qed.

Lemma has_bracket_suffix_spec (s : string) :
  has_bracket_suffix s = true
  <-> exists n g, s = n ++ "[" ++ g ++ "]" /\ g <> ""
                  /\ has_char "]" g = false.
Proof.
  induction s as [|c s IH]; cbn [has_bracket_suffix].
  - split; [discriminate|]. intros ([|c n] & g & E & _); discriminate.
  - rewrite orb_true_iff, andb_true_iff, IH, bracket_body_spec. split.
    + intros [[Hc (g & -> & Hg & Hn)]|(n & g & -> & Hg & Hn)].
      * apply Ascii.eqb_eq in Hc. subst c. exists "", g. auto.
      * exists (String c n), g. auto.
    + intros ([|c0 n] & g & E & Hg & Hn).
      * left. cbn in E. injection E as -> ->. split; [reflexivity|].
        exists g. auto.
      * right. rewrite append_cons in E. injection E as <- ->.
        exists n, g. auto.
Qed.

End ProductRoundTrip.

(** C6, for plain names and codes: a product whose name has no white
    space at either end, no line break and no opening bracket left
    unclosed, and whose code is not empty, has no white space at either end
    and no closing bracket, is recovered by [parseProductString] from its
    display string, Widget with the code W1 for one; the display string of
    any product with an empty code is its name; and any string without a
    trailing bracket suffix parses to itself, trimmed, with an empty
    code. *)
Theorem product_display_round_trip :
  (forall p : Product,
     trim (name p) = name p ->
     has_line_terminator (name p) = false ->
     brackets_closed (name p) = true ->
     code p <> ""%string ->
     trim (code p) = code p ->
     has_char "]" (code p) = false ->
     parseProductString (formatProductWithCode (Some p)) = p)
  /\ parseProductString (formatProductWithCode (Some (mkProduct "Widget" "W1")))
     = mkProduct "Widget" "W1"
  /\ (forall p : Product,
        code p = ""%string -> formatProductWithCode (Some p) = name p)
  /\ (forall s : string,
        has_bracket_suffix s = false ->
        parseProductString s = mkProduct (trim s) "").
Proof.
  split; [|split; [|split]].
  - intros p Hn Hl Hb Hc Ht Hg.
    destruct p as [n g]. cbn [name code] in *.
    unfold formatProductWithCode. cbn [name code].
    destruct g as [|c0 g0] eqn:Eg; [congruence|]. cbn [is_empty negb].
    rewrite <- Eg in *. clear Eg.
    destruct (match_product_pattern_display n g Hn Hl Hb Hc Hg) as (g1 & Hm & Hg1).
    unfold parseProductString.
    replace (is_empty (n ++ " [" ++ g ++ "]")%string) with false
      by (symmetry; apply (is_empty_append n " " ("[" ++ g ++ "]")%string)).
    rewrite Hm, Hg1, Ht. reflexivity.
  - vm_compute. reflexivity.
  - intros p Hc. unfold formatProductWithCode. rewrite Hc. reflexivity.
  - apply parseProductString_no_suffix.
Qed.

Lemma product_display_round_trip_witness :
  parseProductString (formatProductWithCode (Some (mkProduct "Widget" "W1")))
  = mkProduct "Widget" "W1"
  /\ formatProductWithCode (Some (mkProduct "Widget" "")) = "Widget"%string
  /\ parseProductString "Widget]" = mkProduct (trim "Widget]") "".
Proof.
  destruct product_display_round_trip as (H1 & _ & H3 & H4).
  split; [|split].
  - apply (H1 (mkProduct "Widget" "W1")); try reflexivity. discriminate.
  - apply (H3 (mkProduct "Widget" "")). reflexivity.
  - apply (H4 "Widget]"). reflexivity.
Defined.

(** C6 does not hold of every product: white space around a name is
    trimmed away, a name with an unclosed bracket loses it to the code, and
    a code with a closing bracket is not found. *)
Lemma product_display_round_trip_counterexample :
  ~ (forall p : Product, code p <> ""%string ->
       parseProductString (formatProductWithCode (Some p)) = p).
Proof.
  intros H. specialize (H (mkProduct " Widget" "W1")).
  assert (Hc : code (mkProduct " Widget" "W1") <> ""%string) by discriminate.
  specialize (H Hc). vm_compute in H. discriminate.
Qed.

Example parseProductString_examples :
  parseProductString (formatProductWithCode (Some (mkProduct " Widget" "W1")))
  = mkProduct "Widget" "W1"
  /\ parseProductString (formatProductWithCode (Some (mkProduct "A [x" "y")))
     = mkProduct "A" "x [y"
  /\ parseProductString (formatProductWithCode (Some (mkProduct "A" "a]b")))
     = mkProduct "A [a]b]" ""
  /\ parseProductString (formatProductWithCode (Some (mkProduct "A [x]" "y")))
     = mkProduct "A [x]" "y"
  /\ parseProductString " Widget" = mkProduct "Widget" "".
Proof. vm_compute. repeat split; reflexivity. Qed.

(** ** Product search *)

Section ProductSearch.

Local Open Scope string_scope.

Lemma prefix_spec (p s : string) :
  String.prefix p s = true <-> exists post, s = p ++ post.
Proof.
  revert s. induction p as [|c p IH]; intros s.
  - split; [intros _; exists s; reflexivity | intros _; destruct s; reflexivity].
  - destruct s as [|d s]; cbn [String.prefix].
    + split; [discriminate | intros [post H]; discriminate].
    + destruct (ascii_dec c d) as [->|Hne].
      * rewrite IH. split; intros [post H]; exists post.
        -- rewrite append_cons, H. reflexivity.
        -- rewrite append_cons in H. congruence.
      * split; [discriminate|]. intros [post H]. rewrite append_cons in H.
        congruence.
Qed.

Lemma includes_unfold (s needle : string) :
  includes s needle
  = String.prefix needle s
    || match s with "" => false | String _ s' => includes s' needle end.
Proof. destruct s; reflexivity. Qed.

(** [includes] finds the needle exactly when it occurs. *)
Lemma includes_spec (s needle : string) :
  includes s needle = true <-> exists pre post, s = pre ++ needle ++ post.
Proof.
  split.
  - induction s as [|c s IH]; rewrite includes_unfold; intros H;
      apply orb_true_iff in H as [H|H]; try discriminate.
    + apply prefix_spec in H as [post H]. exists "", post. assumption.
    + apply prefix_spec in H as [post H]. exists "", post. assumption.
    + destruct (IH H) as (pre & post & ->). exists (String c pre), post.
      reflexivity.
  - intros (pre & post & ->). induction pre as [|c pre IH].
    + rewrite includes_unfold. apply orb_true_iff. left.
      apply prefix_spec. exists post. reflexivity.
    + rewrite append_cons, includes_unfold, IH. apply orb_true_r.
Qed.

Lemma toLowerCase_empty (s : string) : is_empty (toLowerCase s) = is_empty s.
Proof. destruct s; reflexivity. Qed.

Lemma includes_empty_string (needle : string) :
  is_empty needle = false -> includes "" needle = false.
Proof. destruct needle; [discriminate | reflexivity]. Qed.

(** The test [searchProducts] applies to a product. *)
Lemma product_test_spec (query : string) (p : Product) :
  is_empty query = false ->
  includes (toLowerCase (name p)) (toLowerCase query)
  || (negb (is_empty (code p))
      && includes (toLowerCase (code p)) (toLowerCase query)) = true
  <-> occurs_ignoring_case query (name p) \/ occurs_ignoring_case query (code p).
Proof.
  intros Hq. unfold occurs_ignoring_case.
  rewrite orb_true_iff, andb_true_iff, !includes_spec.
  split.
  - intros [H|[_ H]]; [left | right]; assumption.
  - intros [H|H]; [left; assumption|]. right. split; [|assumption].
    destruct (code p) as [|c g]; [|reflexivity].
    apply includes_spec in H. rewrite includes_empty_string in H;
      [discriminate|]. rewrite toLowerCase_empty. assumption.
Qed.

End ProductSearch.

(** C7: an empty query finds nothing, whatever the catalog holds; any
    other query finds exactly the stored products whose name or code
    contains it when case is ignored, in the order of the catalog. *)
Theorem searchProducts_exact (query : string) (st : Store) :
  query <> ""%string ->
  searchProducts "" st = []
  /\ exists test : Product -> bool,
       (forall p, test p = true
                  <-> occurs_ignoring_case query (name p)
                      \/ occurs_ignoring_case query (code p))
       /\ searchProducts query st = List.filter test (getAllProducts st).
Proof.
  intros Hq. split; [reflexivity|].
  assert (He : is_empty query = false)
    by (destruct query; [exfalso; apply Hq; reflexivity | reflexivity]).
  eexists. split.
  - intros p. apply (product_test_spec query p He).
  - unfold searchProducts. rewrite He. reflexivity.
Qed.

Lemma searchProducts_exact_witness :
  searchProducts "" (mkStore None (Some [mkProduct "Blue Widget" "W1";
                                          mkProduct "Gadget" "";
                                          mkProduct "Bolt" "wid-9"]) None) = []
  /\ exists test : Product -> bool,
       (forall p, test p = true
                  <-> occurs_ignoring_case "WID" (name p)
                      \/ occurs_ignoring_case "WID" (code p))
       /\ searchProducts "WID"
            (mkStore None (Some [mkProduct "Blue Widget" "W1";
                                 mkProduct "Gadget" "";
                                 mkProduct "Bolt" "wid-9"]) None)
          = List.filter test
              (getAllProducts
                 (mkStore None (Some [mkProduct "Blue Widget" "W1";
                                      mkProduct "Gadget" "";
                                      mkProduct "Bolt" "wid-9"]) None)).
Proof.
  apply (searchProducts_exact "WID"). discriminate.
Defined.

Example searchProducts_example :
  searchProducts "WID" (mkStore None (Some [mkProduct "Blue Widget" "W1";
                                            mkProduct "Gadget" "";
                                            mkProduct "Bolt" "wid-9"]) None)
  = [mkProduct "Blue Widget" "W1"; mkProduct "Bolt" "wid-9"].
Proof. vm_compute. reflexivity. Qed.

(** ** Customer normalisation *)

Section Objects.

Lemma getProp_setProp_eq (o : obj) k v : getProp (setProp o k v) k = v.
Proof.
  induction o as [|[k' v'] o IH]; cbn [setProp getProp].
  - rewrite String.eqb_refl. reflexivity.
  - destruct (String.eqb k' k) eqn:E; cbn [getProp]; rewrite E; auto.
Qed.

Lemma getProp_setProp_ne (o : obj) k k' v :
  k <> k' -> getProp (setProp o k v) k' = getProp o k'.
Proof.
  intros Hne. induction o as [|[k0 v0] o IH]; cbn [setProp getProp].
  - destruct (String.eqb_spec k k'); [contradiction | reflexivity].
  - destruct (String.eqb_spec k0 k) as [->|Hk]; cbn [getProp].
    + destruct (String.eqb_spec k k'); [contradiction | reflexivity].
    + rewrite IH. reflexivity.
Qed.

Lemma or_empty_missing : or_empty VUndefined = VStr "".
Proof. reflexivity. Qed.

Lemma or_empty_truthy v : truthy v = true -> or_empty v = v.
Proof. intros H. unfold or_empty. rewrite H. reflexivity. Qed.

Lemma or_empty_falsy v : truthy v = false -> or_empty v = VStr "".
Proof. intros H. unfold or_empty. rewrite H. reflexivity. Qed.

End Objects.

(** C4: [normalizeCustomer] gives [null] for a null or absent customer;
    it gives back, unchanged, a record whose [addresses] is a non-empty
    array; any other record it extends with a one-element [addresses] whose
    address is labelled Primary and takes street, city, state, zip and
    country from the record, an empty string standing for a missing field,
    all other properties staying as they were. *)
Theorem normalizeCustomer_cases (o : obj) :
  normalizeCustomer VNull = VNull
  /\ normalizeCustomer VUndefined = VNull
  /\ match getProp o "addresses" with
     | VArr (_ :: _) => normalizeCustomer (VObj o) = VObj o
     | _ =>
         exists r street city state zip country,
           normalizeCustomer (VObj o) = VObj r
           /\ getProp r "addresses"
              = VArr [VObj [("label"%string, VStr "Primary");
                            ("street"%string, street);
                            ("city"%string, city);
                            ("state"%string, state);
                            ("zip"%string, zip);
                            ("country"%string, country)]]
           /\ street = or_empty (getProp o "street")
           /\ city = or_empty (getProp o "city")
           /\ state = or_empty (getProp o "state")
           /\ zip = or_empty (getProp o "zip")
           /\ country = or_empty (getProp o "country")
           /\ (forall k, k <> "addresses"%string -> getProp r k = getProp o k)
     end
  /\ or_empty VUndefined = VStr ""
  /\ (forall v, truthy v = true -> or_empty v = v).
Proof.
  split; [reflexivity|]. split; [reflexivity|]. split.
  - unfold normalizeCustomer. cbn [truthy negb prop spread].
    assert (Hgen : exists r street city state zip country,
      VObj (setProp o "addresses"
              (VArr [VObj [("label"%string, VStr "Primary");
                           ("street"%string, or_empty (getProp o "street"));
                           ("city"%string, or_empty (getProp o "city"));
                           ("state"%string, or_empty (getProp o "state"));
                           ("zip"%string, or_empty (getProp o "zip"));
                           ("country"%string, or_empty (getProp o "country"))]]))
      = VObj r
      /\ getProp r "addresses"
         = VArr [VObj [("label"%string, VStr "Primary");
                       ("street"%string, street);
                       ("city"%string, city);
                       ("state"%string, state);
                       ("zip"%string, zip);
                       ("country"%string, country)]]
      /\ street = or_empty (getProp o "street")
      /\ city = or_empty (getProp o "city")
      /\ state = or_empty (getProp o "state")
      /\ zip = or_empty (getProp o "zip")
      /\ country = or_empty (getProp o "country")
      /\ (forall k, k <> "addresses"%string -> getProp r k = getProp o k)).
    { eexists _, _, _, _, _, _. split; [reflexivity|].
      split; [apply getProp_setProp_eq|].
      repeat (split; [reflexivity|]).
      intros k Hk. apply getProp_setProp_ne. congruence. }
    destruct (getProp o "addresses") as [| | | | |[|a l]|]; try exact Hgen.
    reflexivity.
  - split; [reflexivity | apply or_empty_truthy].
Qed.

(** C5: normalising twice is normalising once. *)
Theorem normalizeCustomer_idempotent (c : value) :
  normalizeCustomer (normalizeCustomer c) = normalizeCustomer c.
Proof.
  unfold normalizeCustomer at 2 3.
  destruct (truthy c) eqn:Ht; cbn [negb]; [|reflexivity].
  assert (Hnew : forall a,
    normalizeCustomer (VObj (setProp (spread c) "addresses" (VArr [a])))
    = VObj (setProp (spread c) "addresses" (VArr [a]))).
  { intros a. unfold normalizeCustomer. cbn [truthy negb prop].
    rewrite getProp_setProp_eq. reflexivity. }
  destruct (prop c "addresses") as [| | | | |[|a l]|] eqn:Hp; try apply Hnew.
  unfold normalizeCustomer. rewrite Ht, Hp. reflexivity.
Qed.

Example normalizeCustomer_legacy :
  normalizeCustomer
    (VObj [("name"%string, VStr "Acme"); ("street"%string, VStr "1 High St");
           ("city"%string, VStr "Leeds")])
  = VObj [("name"%string, VStr "Acme"); ("street"%string, VStr "1 High St");
          ("city"%string, VStr "Leeds");
          ("addresses"%string,
           VArr [VObj [("label"%string, VStr "Primary");
                       ("street"%string, VStr "1 High St");
                       ("city"%string, VStr "Leeds");
                       ("state"%string, VStr "");
                       ("zip"%string, VStr "");
                       ("country"%string, VStr "")]])].
Proof. vm_compute. reflexivity. Qed.

(** ** Saving customers *)

Section SaveCustomer.

Context {A : Type} (f : A -> bool).

Lemma findIndex_range (l : list A) :
  findIndex f l = -1 \/ 0 <= findIndex f l < Z.of_nat (length l).
Proof.
  induction l as [|x l IH]; [left; reflexivity|].
  cbn [findIndex length]. destruct (f x); [right; lia|].
  destruct (Z.eqb_spec (findIndex f l) (-1)); [left; reflexivity | right; lia].
Qed.

(** No element passes the test when [findIndex] answers -1. *)
Lemma findIndex_absent (l : list A) :
  findIndex f l = -1 <-> List.filter f l = [].
Proof.
  induction l as [|x l IH]; [tauto|].
  cbn [findIndex List.filter]. destruct (f x); [split; [lia | discriminate]|].
  pose proof (findIndex_range l).
  destruct (Z.eqb_spec (findIndex f l) (-1)); [tauto|].
  rewrite <- IH. split; [lia | contradiction].
Qed.

(** Otherwise it answers the place of the first element that passes. *)
Lemma findIndex_present (l : list A) :
  findIndex f l <> -1 ->
  exists l1 x l2,
    l = l1 ++ x :: l2 /\ findIndex f l = Z.of_nat (length l1)
    /\ f x = true /\ List.filter f l1 = [].
Proof.
  induction l as [|x l IH]; [cbn; congruence|].
  cbn [findIndex]. destruct (f x) eqn:Hx.
  - intros _. exists [], x, l. auto.
  - destruct (Z.eqb_spec (findIndex f l) (-1)) as [|Hne]; [congruence|].
    intros _. destruct (IH Hne) as (l1 & y & l2 & -> & Hi & Hy & H1).
    exists (x :: l1), y, l2. repeat split; try assumption.
    + rewrite Hi. cbn [length]. lia.
    + cbn [List.filter]. rewrite Hx. assumption.
Qed.

End SaveCustomer.

Section CustomerStore.

Lemma strict_eq_true a b : strict_eq a b = true -> a = b.
Proof.
  destruct a, b; cbn [strict_eq]; try discriminate; try reflexivity; intros H.
  - apply Bool.eqb_prop in H. congruence.
  - apply Z.eqb_eq in H. congruence.
  - apply String.eqb_eq in H. congruence.
Qed.

Lemma same_name_eq c1 c2 r :
  same_name c1 c2 = true -> same_name c2 r = same_name c1 r.
Proof.
  unfold same_name. intros H. apply strict_eq_true in H. rewrite H. reflexivity.
Qed.

Lemma same_name_refl c1 c2 : same_name c1 c2 = true -> same_name c2 c2 = true.
Proof.
  unfold same_name. intros H. pose proof (strict_eq_true _ _ H) as E.
  rewrite <- E in H. exact H.
Qed.

Lemma same_name_refl_l c1 c2 : same_name c1 c2 = true -> same_name c1 c1 = true.
Proof.
  unfold same_name. intros H. pose proof (strict_eq_true _ _ H) as E.
  rewrite E in H. exact H.
Qed.

(** What [saveCustomer] leaves under the key [customerDatabase]. *)
Lemma saveCustomer_customers c st :
  getAllCustomers (saveCustomer c st).2
  = if negb (findIndex (same_name c) (getAllCustomers st) =? -1)
    then <[Z.to_nat (findIndex (same_name c) (getAllCustomers st)) := c]>
           (getAllCustomers st)
    else getAllCustomers st ++ [c].
Proof. reflexivity. Qed.

Lemma saveCustomer_append c st :
  List.filter (same_name c) (getAllCustomers st) = [] ->
  getAllCustomers (saveCustomer c st).2 = getAllCustomers st ++ [c].
Proof.
  intros H. rewrite saveCustomer_customers.
  apply findIndex_absent in H. rewrite H. reflexivity.
Qed.

Lemma saveCustomer_replace c st :
  List.filter (same_name c) (getAllCustomers st) <> [] ->
  exists l1 x l2,
    getAllCustomers st = l1 ++ x :: l2
    /\ same_name c x = true /\ List.filter (same_name c) l1 = []
    /\ getAllCustomers (saveCustomer c st).2 = l1 ++ c :: l2.
Proof.
  intros H. rewrite saveCustomer_customers.
  assert (Hi : findIndex (same_name c) (getAllCustomers st) <> -1)
    by (intros E; apply findIndex_absent in E; contradiction).
  destruct (findIndex_present _ _ Hi) as (l1 & x & l2 & El & Ei & Hx & H1).
  exists l1, x, l2. repeat split; try assumption.
  destruct (Z.eqb_spec (findIndex (same_name c) (getAllCustomers st)) (-1));
    [contradiction|]. cbn [negb].
  rewrite Ei, Nat2Z.id, El.
  replace (length l1) with (length l1 + 0)%nat by lia.
  rewrite insert_app_r. reflexivity.
Qed.

End CustomerStore.

Section Upsert.

Lemma filter_empty_iff {A} (f : A -> bool) (l : list A) :
  List.filter f l = [] <-> forall x, In x l -> f x = false.
Proof.
  split.
  - intros H x Hx. destruct (f x) eqn:E; [|reflexivity].
    assert (Hin : In x (List.filter f l)) by (apply List.filter_In; auto).
    rewrite H in Hin. destruct Hin.
  - intros H. induction l as [|x l IH]; [reflexivity|].
    cbn [List.filter]. rewrite (H x) by (left; reflexivity).
    apply IH. intros y Hy. apply H. right. assumption.
Qed.

(** After a save, the records with the name of the saved one: the saved
    record alone, when the name was stored at most once. *)
Lemma saveCustomer_named c st :
  same_name c c = true ->
  (length (List.filter (same_name c) (getAllCustomers st)) <= 1)%nat ->
  List.filter (same_name c) (getAllCustomers (saveCustomer c st).2) = [c].
Proof.
  intros Hc Hn.
  destruct (List.filter (same_name c) (getAllCustomers st)) as [|y ys] eqn:E.
  - rewrite saveCustomer_append by assumption.
    rewrite List.filter_app, E. cbn [List.filter]. rewrite Hc. reflexivity.
  - destruct (saveCustomer_replace c st) as (l1 & x & l2 & El & Hx & H1 & ->);
      [congruence|].
    rewrite El, List.filter_app in E. cbn [List.filter] in E.
    rewrite H1, Hx in E. cbn [app] in E. injection E as _ E. subst ys.
    rewrite List.filter_app. cbn [List.filter]. rewrite H1, Hc.
    destruct (List.filter (same_name c) l2); [reflexivity | cbn in Hn; lia].
Qed.

Lemma same_name_congr c c' x :
  same_name c x = true -> same_name c' x = same_name c' c.
Proof.
  unfold same_name. intros H. apply strict_eq_true in H. rewrite H. reflexivity.
Qed.

Lemma same_name_shared c c' r :
  same_name c' c = true -> same_name c' r = same_name c r.
Proof.
  unfold same_name. intros H. apply strict_eq_true in H. rewrite H. reflexivity.
Qed.

(** No name is stored twice: this holds of the empty store and every save
    keeps it, so it holds of every store that [saveCustomer] alone has
    written. *)
Lemma names_unique_absent : names_unique (getAllCustomers (mkStore None None None)).
Proof. intros c. cbn. lia. Qed.

Lemma saveCustomer_names_unique c st :
  names_unique (getAllCustomers st) ->
  names_unique (getAllCustomers (saveCustomer c st).2).
Proof.
  intros Hu c'. pose proof (Hu c') as Hc'.
  destruct (List.filter (same_name c) (getAllCustomers st)) as [|y ys] eqn:E.
  - rewrite saveCustomer_append by assumption.
    rewrite List.filter_app, length_app. cbn [List.filter].
    destruct (same_name c' c) eqn:Hcc; cbn [length]; [|lia].
    rewrite (List.filter_ext _ _ (fun r => same_name_shared c c' r Hcc)), E.
    cbn. lia.
  - destruct (saveCustomer_replace c st) as (l1 & x & l2 & El & Hx & H1 & ->);
      [congruence|].
    rewrite El in Hc'. rewrite List.filter_app, length_app in Hc' |- *.
    cbn [List.filter] in Hc' |- *.
    rewrite (same_name_congr c c' x Hx) in Hc'.
    destruct (same_name c' c); exact Hc'.
Qed.

End Upsert.

(** C8: [saveCustomer] is an upsert keyed by the name.  A record whose
    name is not stored is added last; otherwise the first record with that
    name is replaced where it stands.  Two saves under one name, into a
    store that holds the name at most once, leave one record of that name:
    that of the second save. *)
Theorem saveCustomer_upsert (c1 c2 : obj) (st : Store) :
  same_name c1 c2 = true ->
  (length (List.filter (same_name c2) (getAllCustomers st)) <= 1)%nat ->
  let st1 := (saveCustomer c1 st).2 in
  let st2 := (saveCustomer c2 st1).2 in
  List.filter (same_name c2) (getAllCustomers st2) = [c2]
  /\ (saveCustomer c1 st).1 = true /\ (saveCustomer c2 st1).1 = true
  /\ ((forall r, In r (getAllCustomers st) -> same_name c1 r = false) ->
      getAllCustomers st1 = getAllCustomers st ++ [c1])
  /\ ((exists r, In r (getAllCustomers st) /\ same_name c1 r = true) ->
      exists l1 x l2,
        getAllCustomers st = l1 ++ x :: l2
        /\ same_name c1 x = true
        /\ (forall r, In r l1 -> same_name c1 r = false)
        /\ getAllCustomers st1 = l1 ++ c1 :: l2).
Proof.
  intros Hs Hn st1 st2.
  assert (Hext : forall r, same_name c2 r = same_name c1 r)
    by (intros r; apply same_name_eq; assumption).
  assert (H22 : same_name c2 c2 = true) by (eapply same_name_refl; eassumption).
  assert (H11 : same_name c1 c1 = true) by (eapply same_name_refl_l; eassumption).
  split; [|split; [reflexivity|split; [reflexivity|split]]].
  - subst st2. apply saveCustomer_named; [assumption|].
    rewrite (List.filter_ext _ _ Hext). subst st1.
    rewrite saveCustomer_named; [cbn; lia | assumption |].
    rewrite <- (List.filter_ext _ _ Hext). assumption.
  - intros Habs. subst st1. apply saveCustomer_append.
    apply filter_empty_iff. assumption.
  - intros (r & Hr & Hf). subst st1.
    destruct (saveCustomer_replace c1 st) as (l1 & x & l2 & El & Hx & H1 & E).
    + intros E. rewrite filter_empty_iff in E. rewrite (E r Hr) in Hf.
      discriminate.
    + exists l1, x, l2. repeat split; try assumption.
      apply filter_empty_iff. assumption.
Qed.

Lemma saveCustomer_upsert_witness :
  getAllCustomers
    (saveCustomer [("name"%string, VStr "Acme"); ("city"%string, VStr "York")]
       (saveCustomer [("name"%string, VStr "Acme"); ("city"%string, VStr "Leeds")]
          (mkStore (Some [[("name"%string, VStr "Bolt Ltd")];
                          [("name"%string, VStr "Acme")]]) None None)).2).2
  = [[("name"%string, VStr "Bolt Ltd")];
     [("name"%string, VStr "Acme"); ("city"%string, VStr "York")]]
  /\ List.filter
       (same_name [("name"%string, VStr "Acme"); ("city"%string, VStr "York")])
       (getAllCustomers
          (saveCustomer
             [("name"%string, VStr "Acme"); ("city"%string, VStr "York")]
             (saveCustomer
                [("name"%string, VStr "Acme"); ("city"%string, VStr "Leeds")]
                (mkStore (Some [[("name"%string, VStr "Bolt Ltd")];
                                [("name"%string, VStr "Acme")]]) None None)).2).2)
     = [[("name"%string, VStr "Acme"); ("city"%string, VStr "York")]].
Proof.
  split; [vm_compute; reflexivity|].
  apply (saveCustomer_upsert
           [("name"%string, VStr "Acme"); ("city"%string, VStr "Leeds")]
           [("name"%string, VStr "Acme"); ("city"%string, VStr "York")]
           (mkStore (Some [[("name"%string, VStr "Bolt Ltd")];
                           [("name"%string, VStr "Acme")]]) None None));
    vm_compute; [reflexivity | lia].
Defined.

(** C10: [saveCustomer] leaves every stored record of another name where
    it was, so those records keep their order; when the name is stored the
    list keeps its length, and when it is not the list is the old one with
    the record added at its end, one longer. *)
Theorem saveCustomer_frame (c : obj) (st : Store) :
  let l := getAllCustomers st in
  let l' := getAllCustomers (saveCustomer c st).2 in
  (forall (i : nat) r, l !! i = Some r -> same_name c r = false ->
                       l' !! i = Some r)
  /\ ((exists r, In r l /\ same_name c r = true) -> length l' = length l)
  /\ ((forall r, In r l -> same_name c r = false) ->
      l' = l ++ [c] /\ length l' = S (length l)).
Proof.
  intros l l'.
  destruct (List.filter (same_name c) l) as [|y ys] eqn:E.
  - assert (Ha : l' = l ++ [c]) by (apply saveCustomer_append; assumption).
    pose proof (proj1 (filter_empty_iff _ _) E) as Hall.
    split; [|split].
    + intros i r Hi _. rewrite Ha. apply lookup_app_l_Some. assumption.
    + intros (r & Hr & Hf). rewrite (Hall r Hr) in Hf. discriminate.
    + intros _. split; [assumption|]. rewrite Ha, length_app. cbn. lia.
  - destruct (saveCustomer_replace c st) as (l1 & x & l2 & El & Hx & H1 & E');
      [fold l; congruence|].
    fold l in El. fold l' in E'.
    split; [|split].
    + intros i r Hi Hr. rewrite E'. rewrite El in Hi.
      destruct (decide (i = length l1)) as [->|Hne].
      * rewrite list_lookup_middle in Hi by reflexivity. congruence.
      * destruct (decide (i < length l1)%nat).
        -- rewrite lookup_app_l in Hi |- * by assumption. assumption.
        -- rewrite lookup_app_r in Hi |- * by lia.
           destruct (i - length l1)%nat as [|k] eqn:Ek; [lia|]. exact Hi.
    + intros _. rewrite E', El, !length_app. reflexivity.
    + intros Hall. rewrite (Hall x) in Hx; [discriminate|].
      rewrite El. apply in_or_app. right. left. reflexivity.
Qed.

Example saveCustomer_frame_example :
  getAllCustomers
    (saveCustomer [("name"%string, VStr "Acme"); ("city"%string, VStr "York")]
       (mkStore (Some [[("name"%string, VStr "Acme")];
                       [("name"%string, VStr "Bolt Ltd")];
                       [("name"%string, VStr "Acme"); ("zip"%string, VStr "1")]])
                None None)).2
  = [[("name"%string, VStr "Acme"); ("city"%string, VStr "York")];
     [("name"%string, VStr "Bolt Ltd")];
     [("name"%string, VStr "Acme"); ("zip"%string, VStr "1")]].
Proof. vm_compute. reflexivity. Qed.

(** ** Callsheets *)

Section Callsheets.

(** A save writes the week's own entry list, but for [__proto__] where
    the stored object has no such entry. *)
Lemma saveCallsheetForWeek_insert weekId entries st :
  weekId <> "__proto__"%string \/ is_Some (getAllCallsheets st !! weekId) ->
  getAllCallsheets (saveCallsheetForWeek weekId entries st).2
  = <[weekId := entries]> (getAllCallsheets st).
Proof.
  intros H. unfold saveCallsheetForWeek, setCallsheets. cbv zeta.
  destruct (String.eqb_spec weekId "__proto__") as [E|E]; [|reflexivity].
  destruct H as [H|H]; [contradiction|].
  rewrite (bool_decide_eq_true_2 _ H). reflexivity.
Qed.

Lemma getCallsheetForWeek_save_eq weekId entries st :
  weekId <> "__proto__"%string \/ is_Some (getAllCallsheets st !! weekId) ->
  getCallsheetForWeek weekId (saveCallsheetForWeek weekId entries st).2
  = Entries entries.
Proof.
  intros H. unfold getCallsheetForWeek. cbv zeta.
  rewrite saveCallsheetForWeek_insert by assumption.
  rewrite lookup_insert_eq. reflexivity.
Qed.

Lemma getCallsheetForWeek_save_ne w weekId entries st :
  w <> weekId ->
  getCallsheetForWeek w (saveCallsheetForWeek weekId entries st).2
  = getCallsheetForWeek w st.
Proof.
  intros H. unfold getCallsheetForWeek. cbv zeta.
  replace (getAllCallsheets (saveCallsheetForWeek weekId entries st).2 !! w)
    with (getAllCallsheets st !! w); [reflexivity|].
  unfold saveCallsheetForWeek, setCallsheets. cbv zeta.
  destruct (_ && _); cbn [snd getAllCallsheets callsheets default];
    [reflexivity|].
  symmetry. apply lookup_insert_ne. congruence.
Qed.

(** A list of entries that is not empty is the week's own. *)
Lemma getCallsheetForWeek_own weekId st entries :
  getCallsheetForWeek weekId st = Entries entries -> entries <> [] ->
  getAllCallsheets st !! weekId = Some entries.
Proof.
  unfold getCallsheetForWeek. cbv zeta.
  destruct (getAllCallsheets st !! weekId) as [l|]; [congruence|].
  destruct (objectPrototype weekId); [discriminate|].
  intros [= <-] H. congruence.
Qed.

(** A week id that names nothing in [Object.prototype] reads a list of
    entries, whatever is stored. *)
Lemma getCallsheetForWeek_entries weekId st :
  objectPrototype weekId = None ->
  exists entries, getCallsheetForWeek weekId st = Entries entries.
Proof.
  intros H. unfold getCallsheetForWeek. cbv zeta. rewrite H.
  destruct (getAllCallsheets st !! weekId); eauto.
Qed.

End Callsheets.

(** C9: for a week id that reads a list of entries, [removeCallsheetEntry]
    with an index outside the list answers [false] and changes nothing;
    with an index inside it answers [true] and the week's list loses the
    entry at that index and nothing else, so it is one shorter, the other
    weeks staying as they were. *)
Theorem removeCallsheetEntry_bounds (weekId : string) (index : Z) (st : Store)
    (entries : list value) :
  getCallsheetForWeek weekId st = Entries entries ->
  (index < 0 \/ Z.of_nat (length entries) <= index ->
   removeCallsheetEntry weekId index st = Some (false, st))
  /\ (0 <= index < Z.of_nat (length entries) ->
      exists st' entries',
        removeCallsheetEntry weekId index st = Some (true, st')
        /\ getCallsheetForWeek weekId st' = Entries entries'
        /\ S (length entries') = length entries
        /\ (forall i : nat, (i < Z.to_nat index)%nat ->
              entries' !! i = entries !! i)
        /\ (forall i : nat, (Z.to_nat index <= i)%nat ->
              entries' !! i = entries !! S i)
        /\ (forall w, w <> weekId ->
              getCallsheetForWeek w st' = getCallsheetForWeek w st)).
Proof.
  intros He. unfold removeCallsheetEntry. rewrite He. split.
  - intros H.
    destruct (Z.leb_spec 0 index), (Z.ltb_spec index (Z.of_nat (length entries)));
      cbn [andb]; try lia; reflexivity.
  - intros H.
    destruct (Z.leb_spec 0 index), (Z.ltb_spec index (Z.of_nat (length entries)));
      cbn [andb]; try lia.
    assert (Hown : is_Some (getAllCallsheets st !! weekId)).
    { exists entries. apply getCallsheetForWeek_own; [assumption|].
      destruct entries; [cbn in H; lia | discriminate]. }
    exists (saveCallsheetForWeek weekId (delete (Z.to_nat index) entries) st).2,
      (delete (Z.to_nat index) entries).
    split; [reflexivity|].
    split; [apply getCallsheetForWeek_save_eq; right; assumption|].
    split; [|split; [|split]].
    + rewrite length_delete by (apply lookup_lt_is_Some; lia).
      assert (0 < length entries)%nat by lia. lia.
    + intros i Hi. apply list_lookup_delete_lt. assumption.
    + intros i Hi. apply list_lookup_delete_ge. assumption.
    + intros w Hw. apply getCallsheetForWeek_save_ne. assumption.
Qed.

Lemma removeCallsheetEntry_bounds_witness :
  (1 < 0 \/ Z.of_nat (length [VStr "a"; VStr "b"; VStr "c"]) <= 1 ->
   removeCallsheetEntry "2024-W01" 1
     (mkStore None None
        (Some {[ "2024-W01"%string := [VStr "a"; VStr "b"; VStr "c"] ]}))
   = Some (false,
           mkStore None None
             (Some {[ "2024-W01"%string := [VStr "a"; VStr "b"; VStr "c"] ]})))
  /\ (0 <= 1 < Z.of_nat (length [VStr "a"; VStr "b"; VStr "c"]) ->
      exists st' entries',
        removeCallsheetEntry "2024-W01" 1
          (mkStore None None
             (Some {[ "2024-W01"%string := [VStr "a"; VStr "b"; VStr "c"] ]}))
        = Some (true, st')
        /\ getCallsheetForWeek "2024-W01" st' = Entries entries'
        /\ S (length entries') = length [VStr "a"; VStr "b"; VStr "c"]
        /\ (forall i : nat, (i < Z.to_nat 1)%nat ->
              entries' !! i = [VStr "a"; VStr "b"; VStr "c"] !! i)
        /\ (forall i : nat, (Z.to_nat 1 <= i)%nat ->
              entries' !! i = [VStr "a"; VStr "b"; VStr "c"] !! S i)
        /\ (forall w, w <> "2024-W01"%string ->
              getCallsheetForWeek w st'
              = getCallsheetForWeek w
                  (mkStore None None
                     (Some {[ "2024-W01"%string
                              := [VStr "a"; VStr "b"; VStr "c"] ]})))).
Proof.
  apply (removeCallsheetEntry_bounds "2024-W01" 1
           (mkStore None None
              (Some {[ "2024-W01"%string := [VStr "a"; VStr "b"; VStr "c"] ]}))
           [VStr "a"; VStr "b"; VStr "c"]).
  vm_compute. reflexivity.
Defined.

Example removeCallsheetEntry_example :
  removeCallsheetEntry "2024-W01" 1
    (mkStore None None
       (Some {[ "2024-W01"%string := [VStr "a"; VStr "b"; VStr "c"] ]}))
  = Some (true,
          mkStore None None
            (Some {[ "2024-W01"%string := [VStr "a"; VStr "c"] ]}))
  /\ removeCallsheetEntry "2024-W01" (-1)
       (mkStore None None
          (Some {[ "2024-W01"%string := [VStr "a"; VStr "b"; VStr "c"] ]}))
     = Some (false,
             mkStore None None
               (Some {[ "2024-W01"%string := [VStr "a"; VStr "b"; VStr "c"] ]}))
  /\ removeCallsheetEntry "2024-W02" 0 (mkStore None None None)
     = Some (false, mkStore None None None).
Proof. vm_compute. repeat split; reflexivity. Qed.

(** Outside the week identifiers: the week id [constructor] reads the
    function [Object], of length 1, which has no [splice]. *)
Example removeCallsheetEntry_inherited :
  removeCallsheetEntry "constructor" 0 (mkStore None None None) = None
  /\ removeCallsheetEntry "constructor" 1 (mkStore None None None)
     = Some (false, mkStore None None None)
  /\ getCallsheetForWeek "__proto__"
       (saveCallsheetForWeek "__proto__" [VStr "a"] (mkStore None None None)).2
     = Member InheritedObject.
Proof. vm_compute. repeat split; reflexivity. Qed.

(** * Further properties *)

(** ** The Monday of a week *)

Section Mondays.

Lemma mondayOfDay_idempotent day : mondayOfDay (mondayOfDay day) = mondayOfDay day.
Proof. unfold mondayOfDay. Z.div_mod_to_equations. lia. Qed.

Lemma getMondayOfWeek_inv t m :
  getMondayOfWeek (Some t) = Some m ->
  m = MakeDate (mondayOfDay (Day t)) (TimeWithinDay t) /\ valid_time m.
Proof.
  rewrite getMondayOfWeek_time. intros H. apply TimeClip_inv in H as [-> H].
  auto.
Qed.

Lemma TimeWithinDay_MakeDate day time :
  0 <= time < msPerDay -> TimeWithinDay (MakeDate day time) = time.
Proof.
  intros H. unfold TimeWithinDay, MakeDate, msPerDay in *.
  Z.div_mod_to_equations. lia.
Qed.

End Mondays.

(** X1: when [getMondayOfWeek] gives a date, it is a Monday, at the same
    time of day, of the same Monday-to-Sunday week, at most six days
    back. *)
Theorem getMondayOfWeek_monday (t m : Z) :
  getMondayOfWeek (Some t) = Some m ->
  getDay (Some m) = Some 1
  /\ TimeWithinDay m = TimeWithinDay t
  /\ 0 <= Day t - Day m <= 6
  /\ same_week t m.
Proof.
  intros H. apply getMondayOfWeek_inv in H as [-> _].
  pose proof (TimeWithinDay_range t) as Hr.
  assert (Hd : Day (MakeDate (mondayOfDay (Day t)) (TimeWithinDay t))
               = mondayOfDay (Day t)) by (apply Day_MakeDate; assumption).
  repeat split.
  - cbv [getDay fmap option_fmap option_map]. f_equal.
    apply WeekDay_monday. rewrite Hd, mondayOfDay_idempotent. reflexivity.
  - apply TimeWithinDay_MakeDate. assumption.
  - rewrite Hd. pose proof (mondayOfDay_range (Day t)). lia.
  - rewrite Hd. pose proof (mondayOfDay_range (Day t)). lia.
  - unfold same_week. rewrite Hd. unfold weekIndex, mondayOfDay.
    Z.div_mod_to_equations. lia.
Qed.

Lemma getMondayOfWeek_monday_witness :
  getDay (Some 1793631600000) = Some 1
  /\ TimeWithinDay 1793631600000 = TimeWithinDay 1793977200000
  /\ 0 <= Day 1793977200000 - Day 1793631600000 <= 6
  /\ same_week 1793977200000 1793631600000.
Proof.
  apply (getMondayOfWeek_monday 1793977200000 1793631600000).
  vm_compute. reflexivity.
Defined.

(** X2: the Monday of a Monday's week is that Monday: [getMondayOfWeek] is
    idempotent, on invalid dates too. *)
Theorem getMondayOfWeek_idempotent (d : Date) :
  getMondayOfWeek (getMondayOfWeek d) = getMondayOfWeek d.
Proof.
  destruct d as [t|]; [|reflexivity].
  destruct (getMondayOfWeek (Some t)) as [m|] eqn:E; [|reflexivity].
  apply getMondayOfWeek_inv in E as [E Hv].
  rewrite getMondayOfWeek_time.
  assert (Hd : Day m = mondayOfDay (Day t))
    by (rewrite E; apply Day_MakeDate, TimeWithinDay_range).
  rewrite Hd, mondayOfDay_idempotent, <- Hd, MakeDate_Day.
  apply TimeClip_Some. assumption.
Qed.

(** X3: a valid date has no Monday only in the first, cut week of the
    range of time values (it starts on a Tuesday): [getMondayOfWeek] then
    gives an invalid date and the identifier is made of NaN. *)
Theorem getMondayOfWeek_first_week (t : Z) :
  valid_time t ->
  (getMondayOfWeek (Some t) = None <-> Day t < -99999994)
  /\ (Day t < -99999994 -> getWeekIdentifier (Some t) = "NaN-WNaN"%string).
Proof.
  intros Hv.
  assert (Hiff : getMondayOfWeek (Some t) = None <-> Day t < -99999994).
  { rewrite getMondayOfWeek_time. pose proof (monday_valid t Hv) as Hm.
    assert (Hc : -100000000 < mondayOfDay (Day t) <-> ~ Day t < -99999994)
      by (unfold mondayOfDay; Z.div_mod_to_equations; lia).
    split.
    - intros H. destruct (Z_lt_le_dec (Day t) (-99999994)); [assumption|].
      rewrite TimeClip_Some in H; [discriminate|]. apply Hm. lia.
    - intros H. apply TimeClip_None. intros Hv'. apply Hm in Hv'. lia. }
  split; [exact Hiff|].
  intros H. apply Hiff in H. unfold getWeekIdentifier. cbv zeta. rewrite H.
  vm_compute. reflexivity.
Qed.

Lemma getMondayOfWeek_first_week_witness :
  (getMondayOfWeek (Some (-8640000000000000)) = None
   <-> Day (-8640000000000000) < -99999994)
  /\ (Day (-8640000000000000) < -99999994 ->
      getWeekIdentifier (Some (-8640000000000000)) = "NaN-WNaN"%string).
Proof.
  apply (getMondayOfWeek_first_week (-8640000000000000)).
  unfold valid_time. lia.
Defined.

(** ** Week numbers and the week an identifier names *)

Section IsoWeeks.

Lemma thursdayOfDay_weekIndex day : thursdayOfDay day = 7 * weekIndex day.
Proof. unfold thursdayOfDay. rewrite mondayOfDay_weekIndex. lia. Qed.

Lemma ceil_div_7 n : 0 <= n -> ceil_div (n + 1) 7 = n / 7 + 1.
Proof. intros H. unfold ceil_div. Z.div_mod_to_equations. lia. Qed.

Lemma digit_char_inj a b :
  0 <= a <= 9 -> 0 <= b <= 9 -> digit_char a = digit_char b -> a = b.
Proof.
  intros Ha Hb H. apply (f_equal nat_of_ascii) in H. unfold digit_char in H.
  rewrite !nat_ascii_embedding in H by lia. lia.
Qed.

Lemma two_digits_inj a b :
  0 <= a <= 99 -> 0 <= b <= 99 ->
  digit_char (a / 10) = digit_char (b / 10) ->
  digit_char (a mod 10) = digit_char (b mod 10) -> a = b.
Proof.
  intros Ha Hb H1 H2.
  apply digit_char_inj in H1; [|Z.div_mod_to_equations; lia ..].
  apply digit_char_inj in H2; [|Z.div_mod_to_equations; lia ..].
  Z.div_mod_to_equations. lia.
Qed.

Lemma NumberToString_4_inj a b :
  1000 <= a <= 9999 -> 1000 <= b <= 9999 ->
  NumberToString (Some a) = NumberToString (Some b) -> a = b.
Proof.
  intros Ha Hb. rewrite !NumberToString_4 by assumption.
  intros H. injection H as H3 H2 H1 H0.
  apply digit_char_inj in H3; [|Z.div_mod_to_equations; lia ..].
  apply digit_char_inj in H2; [|Z.div_mod_to_equations; lia ..].
  apply digit_char_inj in H1; [|Z.div_mod_to_equations; lia ..].
  apply digit_char_inj in H0; [|Z.div_mod_to_equations; lia ..].
  Z.div_mod_to_equations. lia.
Qed.

(** The identifier, with its week number written out. *)
Lemma getWeekIdentifier_iso t :
  valid_time t ->
  1000 <= YearFromDay (mondayOfDay (Day t)) <= 9999 ->
  let thu := thursdayOfDay (Day t) in
  let w := (thu - DayFromYear (YearFromDay thu)) / 7 + 1 in
  1 <= w <= 53
  /\ getWeekIdentifier (Some t)
     = (NumberToString (Some (YearFromDay (mondayOfDay (Day t)))) ++ "-W"
        ++ String (digit_char (w / 10)) (String (digit_char (w mod 10)) ""))%string.
Proof.
  intros Hv Hy thu w. unfold getWeekIdentifier. cbv zeta.
  rewrite getMondayOfWeek_time.
  set (m := MakeDate (mondayOfDay (Day t)) (TimeWithinDay t)).
  assert (Hm : Day m = mondayOfDay (Day t))
    by (apply Day_MakeDate, TimeWithinDay_range).
  assert (Hb : -1000000 <= mondayOfDay (Day t) <= 3000000)
    by (apply year_bounds_day; lia).
  rewrite TimeClip_Some by (apply monday_valid; [assumption | lia]).
  assert (Hym : YearFromTime m = YearFromDay (mondayOfDay (Day t)))
    by (unfold YearFromTime; rewrite Hm; reflexivity).
  rewrite getWeekNumber_iso by lia.
  assert (Hthu : thursdayOfDay (Day m) = thu).
  { subst thu. unfold thursdayOfDay. rewrite Hm, mondayOfDay_idempotent.
    reflexivity. }
  rewrite Hthu.
  assert (Hn : 0 <= thu - DayFromYear (YearFromDay thu) <= 365).
  { pose proof (YearFromDay_spec thu) as [T1 T2].
    pose proof (DayFromYear_succ (YearFromDay thu)) as E2.
    pose proof (DaysInYear_bounds (YearFromDay thu)). lia. }
  rewrite ceil_div_7 by lia. fold w.
  assert (Hw : 1 <= w <= 53) by (subst w; Z.div_mod_to_equations; lia).
  split; [assumption|].
  cbv [getFullYear fmap option_fmap option_map]. rewrite Hym.
  rewrite padStart_2 by lia. reflexivity.
Qed.

End IsoWeeks.

(** X4: for a date of the years 1000 to 9999, [getWeekNumber] is the ISO
    week number: one more than the number of whole weeks from 1 January of
    the Thursday's year to the Thursday of the date's week.  It lies
    between 1 and 53 and is the same for the dates of a week. *)
Theorem getWeekNumber_week (t1 t2 : Z) :
  1000 <= YearFromTime t1 <= 9999 ->
  1000 <= YearFromTime t2 <= 9999 ->
  same_week t1 t2 ->
  exists w,
    getWeekNumber (Some t1) = Some w /\ getWeekNumber (Some t2) = Some w
    /\ 1 <= w <= 53
    /\ w = (thursdayOfDay (Day t1)
            - DayFromYear (YearFromDay (thursdayOfDay (Day t1)))) / 7 + 1.
Proof.
  intros H1 H2 Hw. rewrite !getWeekNumber_iso by assumption.
  assert (Ht : thursdayOfDay (Day t2) = thursdayOfDay (Day t1)).
  { rewrite !thursdayOfDay_weekIndex. unfold same_week in Hw. lia. }
  rewrite Ht. set (thu := thursdayOfDay (Day t1)).
  assert (Hn : 0 <= thu - DayFromYear (YearFromDay thu) <= 365).
  { pose proof (YearFromDay_spec thu) as [T1 T2].
    pose proof (DayFromYear_succ (YearFromDay thu)) as E2.
    pose proof (DaysInYear_bounds (YearFromDay thu)). lia. }
  rewrite ceil_div_7 by lia. eexists. repeat split.
  - Z.div_mod_to_equations. lia.
  - Z.div_mod_to_equations. lia.
Qed.

Lemma getWeekNumber_week_witness :
  exists w,
    getWeekNumber (Some 1793631600000) = Some w
    /\ getWeekNumber (Some 1794150000000) = Some w
    /\ 1 <= w <= 53
    /\ w = (thursdayOfDay (Day 1793631600000)
            - DayFromYear (YearFromDay (thursdayOfDay (Day 1793631600000))))
           / 7 + 1.
Proof.
  apply (getWeekNumber_week 1793631600000 1794150000000);
    vm_compute; try reflexivity; split; discriminate.
Defined.

(** X5: two valid dates with the same identifier lie in the same week,
    when the weeks lie in the years 1000 to 9999 and do not straddle a new
    year (Monday and Thursday in one calendar year). *)
Theorem getWeekIdentifier_names_week (t1 t2 : Z) :
  valid_time t1 -> valid_time t2 ->
  1000 <= YearFromDay (mondayOfDay (Day t1)) <= 9999 ->
  1000 <= YearFromDay (mondayOfDay (Day t2)) <= 9999 ->
  YearFromDay (thursdayOfDay (Day t1)) = YearFromDay (mondayOfDay (Day t1)) ->
  YearFromDay (thursdayOfDay (Day t2)) = YearFromDay (mondayOfDay (Day t2)) ->
  getWeekIdentifier (Some t1) = getWeekIdentifier (Some t2) ->
  same_week t1 t2.
Proof.
  intros V1 V2 Y1 Y2 S1 S2.
  destruct (getWeekIdentifier_iso t1 V1 Y1) as [W1 ->].
  destruct (getWeekIdentifier_iso t2 V2 Y2) as [W2 ->].
  rewrite S1, S2 in *.
  set (y1 := YearFromDay (mondayOfDay (Day t1))) in *.
  set (y2 := YearFromDay (mondayOfDay (Day t2))) in *.
  rewrite !NumberToString_4 by assumption.
  cbv [String.append]. intros H.
  injection H as A3 A2 A1 A0 B1 B0.
  assert (Ey : y1 = y2).
  { apply NumberToString_4_inj; try assumption.
    rewrite !NumberToString_4 by assumption. rewrite A3, A2, A1, A0.
    reflexivity. }
  match type of B1 with
  | digit_char (?a / 10) = digit_char (?b / 10) =>
      assert (Ew : a = b)
        by (apply two_digits_inj;
            [clear - W1; lia | clear - W2; lia | exact B1 | exact B0])
  end.
  clear B1 B0. rename Ew into B1. rewrite Ey in B1.
  pose proof (YearFromDay_spec (thursdayOfDay (Day t1))) as [P1 P2].
  pose proof (YearFromDay_spec (thursdayOfDay (Day t2))) as [Q1 Q2].
  rewrite S1 in P1, P2. rewrite S2 in Q1, Q2. fold y1 in P1, P2.
  fold y2 in Q1, Q2. rewrite Ey in P1, P2.
  unfold same_week. rewrite !thursdayOfDay_weekIndex in *.
  generalize dependent (weekIndex (Day t1)).
  generalize dependent (weekIndex (Day t2)).
  generalize dependent (DayFromYear y2).
  generalize dependent (DayFromYear (y2 + 1)).
  clear. intros D' D a2 Q1 Q2 a1 B1 P1 P2.
  Z.div_mod_to_equations. lia.
Qed.

Lemma getWeekIdentifier_names_week_witness :
  same_week 1793631600000 1794150000000.
Proof.
  apply (getWeekIdentifier_names_week 1793631600000 1794150000000);
    vm_compute; try reflexivity; try discriminate; split; discriminate.
Defined.

(** ** Formatted dates *)

Section FormatDate.

Lemma InLeapYear_DaysInYear t :
  DaysInYear (YearFromTime t) = 365 + InLeapYear t.
Proof.
  unfold InLeapYear. pose proof (DaysInYear_bounds (YearFromTime t)).
  destruct (Z.eqb_spec (DaysInYear (YearFromTime t)) 366); lia.
Qed.

(** The day of the month lies in the month. *)
Lemma DateFromTime_range t : 1 <= DateFromTime t <= 31.
Proof.
  pose proof (DayWithinYear_range t) as Hd.
  rewrite InLeapYear_DaysInYear in Hd.
  assert (Hl : 0 <= InLeapYear t <= 1)
    by (unfold InLeapYear; destruct (_ =? _); lia).
  unfold DateFromTime, MonthFromTime, monthStart.
  generalize dependent (InLeapYear t). generalize dependent (DayWithinYear t).
  intros d leap Hd Hl.
  repeat match goal with
         | |- context [?a <? ?b] => destruct (Z.ltb_spec a b)
         end;
  repeat match goal with
         | |- context [?a <=? ?b] => destruct (Z.leb_spec a b)
         | |- context [?a =? ?b] => destruct (Z.eqb_spec a b)
         end; lia.
Qed.

(** The text of the two formats, in digits. *)
Lemma formatDate_digits t :
  1000 <= YearFromTime t <= 9999 ->
  formatDate (Some t)
  = (NumberToString (Some (YearFromTime t)) ++ "-"
     ++ String (digit_char ((MonthFromTime t + 1) / 10))
          (String (digit_char ((MonthFromTime t + 1) mod 10)) "")
     ++ "-"
     ++ String (digit_char (DateFromTime t / 10))
          (String (digit_char (DateFromTime t mod 10)) ""))%string.
Proof.
  intros Hy. pose proof (MonthFromTime_range t). pose proof (DateFromTime_range t).
  unfold formatDate. cbv [getFullYear getMonth getDate fmap option_fmap option_map].
  rewrite !padStart_2 by lia. reflexivity.
Qed.


End FormatDate.



(** X7: [formatDate] names the calendar day: two dates of the years 1000
    to 9999 have the same text exactly when they fall on the same day. *)
Theorem formatDate_same_day (t1 t2 : Z) :
  1000 <= YearFromTime t1 <= 9999 ->
  1000 <= YearFromTime t2 <= 9999 ->
  formatDate (Some t1) = formatDate (Some t2) <-> Day t1 = Day t2.
Proof.
  intros H1 H2. split.
  - rewrite !formatDate_digits by assumption.
    rewrite !NumberToString_4 by assumption. cbv [String.append].
    pose proof (MonthFromTime_range t1). pose proof (MonthFromTime_range t2).
    pose proof (DateFromTime_range t1). pose proof (DateFromTime_range t2).
    intros Heq. injection Heq as A3 A2 A1 A0 M1 M0 D1 D0.
    assert (Ey : YearFromTime t1 = YearFromTime t2).
    { apply NumberToString_4_inj; try assumption.
      rewrite !NumberToString_4 by assumption. rewrite A3, A2, A1, A0.
      reflexivity. }
    assert (Em : MonthFromTime t1 + 1 = MonthFromTime t2 + 1)
      by (apply two_digits_inj; [lia | lia | exact M1 | exact M0]).
    assert (Ed : DateFromTime t1 = DateFromTime t2)
      by (apply two_digits_inj; [lia | lia | exact D1 | exact D0]).
    pose proof (MakeDay_fields t1 (DateFromTime t1)) as F1.
    pose proof (MakeDay_fields t2 (DateFromTime t2)) as F2.
    assert (Em' : MonthFromTime t1 = MonthFromTime t2) by lia.
    rewrite Ey, Em', Ed in F1. lia.
  - intros Hd. unfold formatDate.
    cbv [getFullYear getMonth getDate fmap option_fmap option_map].
    rewrite (YearFromTime_Day _ _ Hd), (MonthFromTime_Day _ _ Hd),
      (DateFromTime_Day _ _ Hd). reflexivity.
Qed.

Lemma formatDate_same_day_witness :
  formatDate (Some 1793631600000) = formatDate (Some 1793577600000)
  <-> Day 1793631600000 = Day 1793577600000.
Proof.
  apply (formatDate_same_day 1793631600000 1793577600000);
    vm_compute; split; discriminate.
Defined.

Example formatDate_example :
  formatDate (civil 2026 11 2 15) = "2026-11-02"%string
  /\ formatDateDisplay (civil 2026 11 2 15) = "02/11/2026"%string
  /\ formatDate (civil 2024 2 29 0) = "2024-02-29"%string
  /\ formatDate None = "NaN-NaN-NaN"%string.
Proof. vm_compute. repeat split; reflexivity. Qed.

(** ** Product codes in descriptions *)

Section ExtractCode.

Local Open Scope string_scope.

Lemma append_assoc3 (a b c : string) : (a ++ b) ++ c = a ++ b ++ c.
Proof.
  induction a as [|x a IH]; [reflexivity|]. rewrite !append_cons, IH.
  reflexivity.
Qed.

Lemma class_run_code (g r : string) :
  has_char "]" g = false -> class_run (g ++ String "]" r) = (g, String "]" r).
Proof.
  induction g as [|c g IH]; [reflexivity|].
  cbn [has_char]. intros H. apply orb_false_iff in H as [Hc Hg].
  rewrite append_cons. cbn [class_run]. rewrite Hc, (IH Hg). reflexivity.
Qed.

(** What [class_run] returns: the run has no closing bracket, and what
    follows is empty or starts with one. *)
Lemma class_run_spec (s : string) :
  s = fst (class_run s) ++ snd (class_run s)
  /\ has_char "]" (fst (class_run s)) = false
  /\ (snd (class_run s) = ""
      \/ exists r, snd (class_run s) = String "]" r).
Proof.
  induction s as [|c s (IH1 & IH2 & IH3)]; [cbn; auto|].
  cbn [class_run]. destruct (Ascii.eqb_spec c "]") as [->|Hc].
  - cbn. repeat split. right. exists s. reflexivity.
  - destruct (class_run s) as [g rest]. cbn [fst snd] in *.
    repeat split.
    + rewrite append_cons. congruence.
    + cbn [has_char]. rewrite IH2.
      destruct (Ascii.eqb_spec c "]"); [contradiction | reflexivity].
    + assumption.
Qed.

Lemma first_bracket_group_skip (n s : string) :
  has_char "[" n = false ->
  first_bracket_group (n ++ s) = first_bracket_group s.
Proof.
  induction n as [|c n IH]; [reflexivity|].
  cbn [has_char]. intros H. apply orb_false_iff in H as [Hc Hn].
  rewrite append_cons. cbn [first_bracket_group]. rewrite Hc. apply IH, Hn.
Qed.

Lemma first_bracket_group_none_open (s : string) :
  has_char "[" s = false -> first_bracket_group s = None.
Proof.
  induction s as [|c s IH]; [reflexivity|].
  cbn [has_char]. intros H. apply orb_false_iff in H as [Hc Hs].
  cbn [first_bracket_group]. rewrite Hc. apply IH, Hs.
Qed.

Lemma class_run_no_close (s : string) :
  has_char "]" s = false -> snd (class_run s) = "".
Proof.
  induction s as [|c s IH]; [reflexivity|].
  cbn [has_char]. intros H. apply orb_false_iff in H as [Hc Hs].
  cbn [class_run]. rewrite Hc. specialize (IH Hs).
  destruct (class_run s). cbn [snd] in *. assumption.
Qed.

Lemma first_bracket_group_none_close (s : string) :
  has_char "]" s = false -> first_bracket_group s = None.
Proof.
  induction s as [|c s IH]; [reflexivity|].
  cbn [has_char]. intros H. apply orb_false_iff in H as [Hc Hs].
  cbn [first_bracket_group]. rewrite (IH Hs).
  destruct (Ascii.eqb c "["); [|reflexivity].
  pose proof (class_run_no_close s Hs) as Hr.
  destruct (class_run s) as [g rest]. cbn [snd] in Hr. subst rest.
  rewrite andb_false_r. reflexivity.
Qed.

(** A group that is found stands in the text between two brackets. *)
Lemma first_bracket_group_found (s g : string) :
  first_bracket_group s = Some g ->
  g <> "" /\ has_char "]" g = false
  /\ exists pre post, s = pre ++ "[" ++ g ++ "]" ++ post.
Proof.
  induction s as [|c s IH]; [discriminate|].
  cbn [first_bracket_group].
  assert (Hrec : first_bracket_group s = Some g ->
                 g <> "" /\ has_char "]" g = false
                 /\ exists pre post, String c s = pre ++ "[" ++ g ++ "]" ++ post).
  { intros H. destruct (IH H) as (Hg & Hc & pre & post & ->).
    repeat split; try assumption. exists (String c pre), post. reflexivity. }
  destruct (Ascii.eqb_spec c "[") as [->|Hc]; [|exact Hrec].
  pose proof (class_run_spec s) as (Hs & Hno & Hrest).
  destruct (class_run s) as [g' rest]. cbn [fst snd] in *.
  destruct g' as [|c' g']; [exact Hrec|]. cbn [is_empty negb andb].
  destruct rest as [|c0 rest]; [exact Hrec|]. cbn [is_empty negb].
  intros [= <-]. split; [discriminate|]. split; [assumption|].
  destruct Hrest as [Hr|[r Hr]]; [discriminate|]. injection Hr as -> ->.
  exists "", r. rewrite Hs. reflexivity.
Qed.

End ExtractCode.

(** X8: [extractProductCode] reads the code back from a display string:
    for a product whose name has no opening bracket and whose code has no
    closing bracket, [extractProductCode (formatProductWithCode p)] is the
    code, the empty code of a product without one included. *)
Theorem extractProductCode_format (p : Product) :
  has_char "[" (name p) = false ->
  has_char "]" (code p) = false ->
  extractProductCode (formatProductWithCode (Some p)) = code p.
Proof.
  intros Hn Hc. destruct p as [n g]. cbn [name code] in *.
  unfold formatProductWithCode, extractProductCode. cbn [name code].
  destruct g as [|c0 g0] eqn:Eg; cbn [is_empty negb].
  - rewrite first_bracket_group_none_open by assumption.
    destruct (is_empty n); reflexivity.
  - rewrite <- Eg in *.
    replace (is_empty (n ++ " [" ++ g ++ "]")%string) with false
      by (symmetry; apply (is_empty_append n " " ("[" ++ g ++ "]")%string)).
    rewrite first_bracket_group_skip by assumption.
    change (" [" ++ g ++ "]")%string
      with (String " " (String "[" (g ++ String "]" ""))).
    cbn [first_bracket_group].
    change (Ascii.eqb " " "[") with false. change (Ascii.eqb "[" "[") with true.
    cbv iota. rewrite class_run_code by assumption.
    rewrite Eg. reflexivity.
Qed.

Lemma extractProductCode_format_witness :
  extractProductCode (formatProductWithCode (Some (mkProduct "Blue Widget" "W1")))
  = code (mkProduct "Blue Widget" "W1").
Proof.
  apply (extractProductCode_format (mkProduct "Blue Widget" "W1"));
    reflexivity.
Defined.

(** X9: what [extractProductCode] returns is empty or a text without a
    closing bracket that stands between an opening and a closing bracket
    in the description; it is empty when the description lacks either
    bracket. *)
Theorem extractProductCode_brackets (description : string) :
  (extractProductCode description = ""%string
   \/ (has_char "]" (extractProductCode description) = false
       /\ exists pre post,
            description
            = (pre ++ "[" ++ extractProductCode description ++ "]" ++ post)%string))
  /\ (has_char "[" description = false ->
      extractProductCode description = ""%string)
  /\ (has_char "]" description = false ->
      extractProductCode description = ""%string).
Proof.
  unfold extractProductCode. split; [|split].
  - destruct (is_empty description); [left; reflexivity|].
    destruct (first_bracket_group description) as [g|] eqn:E;
      [|left; reflexivity].
    right. apply first_bracket_group_found in E as (_ & Hc & Hex). auto.
  - intros H. rewrite first_bracket_group_none_open by assumption.
    destruct (is_empty description); reflexivity.
  - intros H. rewrite first_bracket_group_none_close by assumption.
    destruct (is_empty description); reflexivity.
Qed.

Example extractProductCode_examples :
  extractProductCode "Widget [W1] blue [B2]" = "W1"%string
  /\ extractProductCode "[] Widget [W1]" = "W1"%string
  /\ extractProductCode "Widget [W1" = ""%string
  /\ extractProductCode "a ] b [ c" = ""%string
  /\ extractProductCode "x [a [b] c]" = "a [b"%string.
Proof. vm_compute. repeat split; reflexivity. Qed.

(** ** What [parseProductString] returns *)

Section Trimmed.

Local Open Scope string_scope.

Lemma trimEnd_idempotent (s : string) : trimEnd (trimEnd s) = trimEnd s.
Proof.
  induction s as [|c s IH]; [reflexivity|].
  cbn [trimEnd].
  destruct (is_white_space c && is_empty (trimEnd s)) eqn:E; [reflexivity|].
  cbn [trimEnd]. rewrite IH, E. reflexivity.
Qed.

Lemma trimStart_clean (s : string) : starts_clean (trimStart s) = true.
Proof.
  induction s as [|c s IH]; [reflexivity|].
  cbn [trimStart]. destruct (is_white_space c) eqn:E; [assumption|].
  cbn. rewrite E. reflexivity.
Qed.

Lemma trimStart_fixed (s : string) : starts_clean s = true -> trimStart s = s.
Proof.
  destruct s as [|c s]; [reflexivity|]. cbn.
  destruct (is_white_space c); [discriminate | reflexivity].
Qed.

Lemma trimEnd_clean (s : string) :
  starts_clean s = true -> starts_clean (trimEnd s) = true.
Proof.
  destruct s as [|c s]; [reflexivity|]. cbn [starts_clean trimEnd].
  destruct (is_white_space c) eqn:E; [discriminate|]. intros _.
  cbn. rewrite E. reflexivity.
Qed.

Lemma trim_idempotent (s : string) : trim (trim s) = trim s.
Proof.
  unfold trim.
  rewrite (trimStart_fixed (trimEnd (trimStart s)))
    by apply trimEnd_clean, trimStart_clean.
  apply trimEnd_idempotent.
Qed.

Lemma has_char_trimStart c (s : string) :
  has_char c s = false -> has_char c (trimStart s) = false.
Proof.
  induction s as [|d s IH]; [reflexivity|].
  cbn [has_char trimStart]. intros H.
  destruct (is_white_space d); [|exact H].
  apply orb_false_iff in H as [_ H]. apply IH, H.
Qed.

Lemma has_char_trimEnd c (s : string) :
  has_char c s = false -> has_char c (trimEnd s) = false.
Proof.
  induction s as [|d s IH]; [reflexivity|].
  cbn [has_char trimEnd]. intros H. apply orb_false_iff in H as [Hd H].
  destruct (is_white_space d && is_empty (trimEnd s)); [reflexivity|].
  cbn [has_char]. rewrite Hd, (IH H). reflexivity.
Qed.

Lemma has_char_trim c (s : string) :
  has_char c s = false -> has_char c (trim s) = false.
Proof. intros H. apply has_char_trimEnd, has_char_trimStart, H. Qed.

Lemma class_then_close_no_close (s g : string) :
  class_then_close s = Some g -> has_char "]" g = false.
Proof.
  revert g. induction s as [|c s IH]; [discriminate|].
  intros g. cbn [class_then_close].
  destruct (Ascii.eqb c "]") eqn:Hc.
  - destruct (is_empty s); [|discriminate]. intros [= <-]. reflexivity.
  - destruct (class_then_close s) as [g'|]; [|discriminate].
    intros [= <-]. cbn [has_char]. rewrite Hc. apply IH. reflexivity.
Qed.

Lemma bracket_group_no_close (s g : string) :
  bracket_group s = Some g -> has_char "]" g = false.
Proof.
  destruct s as [|c s]; [discriminate|]. cbn [bracket_group].
  destruct (Ascii.eqb c "["); [|discriminate].
  destruct (class_then_close s) as [g'|] eqn:E; [|discriminate].
  destruct (is_empty g'); [discriminate|]. intros [= <-].
  eapply class_then_close_no_close. eassumption.
Qed.

Lemma space_then_bracket_no_close (s g : string) :
  space_then_bracket s = Some g -> has_char "]" g = false.
Proof.
  revert g. induction s as [|c s IH]; [discriminate|].
  intros g. cbn [space_then_bracket]. destruct (is_white_space c).
  - destruct (space_then_bracket s) as [g'|].
    + intros [= <-]. apply IH. reflexivity.
    + apply bracket_group_no_close.
  - apply bracket_group_no_close.
Qed.

Lemma lazy_group_no_close (before rest : string) g1 g2 :
  lazy_group before rest = Some (g1, g2) -> has_char "]" g2 = false.
Proof.
  revert before. induction rest as [|c rest IH]; intros before.
  - cbn. discriminate.
  - cbn [lazy_group]. destruct (space_then_bracket (String c rest)) eqn:E.
    + intros [= _ <-]. eapply space_then_bracket_no_close. eassumption.
    + destruct (is_line_terminator c); [discriminate|]. apply IH.
Qed.

End Trimmed.

(** X10: the name and the code [parseProductString] returns carry no
    white space at either end, and the code holds no closing bracket. *)
Theorem parseProductString_trimmed (productString : string) :
  trim (name (parseProductString productString))
  = name (parseProductString productString)
  /\ trim (code (parseProductString productString))
     = code (parseProductString productString)
  /\ has_char "]" (code (parseProductString productString)) = false.
Proof.
  unfold parseProductString.
  destruct (is_empty productString); [cbn; auto|].
  destruct (match_product_pattern productString) as [[g1 g2]|] eqn:E;
    cbn [name code].
  - rewrite !trim_idempotent. repeat split.
    apply has_char_trim.
    destruct productString as [|c rest]; [discriminate|].
    cbn [match_product_pattern] in E.
    destruct (is_line_terminator c); [discriminate|].
    eapply lazy_group_no_close. eassumption.
  - rewrite trim_idempotent. auto.
Qed.

(** ** Looking products up *)

Section ProductLookup.

Local Open Scope string_scope.

Lemma occurs_ignoring_case_refl (s : string) : occurs_ignoring_case s s.
Proof. exists "", "". cbn [String.append]. rewrite append_empty_r. reflexivity. Qed.

Lemma occurs_ignoring_case_trans (a b c : string) :
  occurs_ignoring_case a b -> occurs_ignoring_case b c ->
  occurs_ignoring_case a c.
Proof.
  intros (p1 & q1 & H1) (p2 & q2 & H2). exists (p2 ++ p1), (q1 ++ q2).
  rewrite H2, H1, !append_assoc3. reflexivity.
Qed.

Lemma searchProducts_In (query : string) (st : Store) (p : Product) :
  query <> "" ->
  In p (searchProducts query st)
  <-> In p (getAllProducts st)
      /\ (occurs_ignoring_case query (name p)
          \/ occurs_ignoring_case query (code p)).
Proof.
  intros Hq.
  assert (He : is_empty query = false)
    by (destruct query; [exfalso; apply Hq; reflexivity | reflexivity]).
  unfold searchProducts. rewrite He, List.filter_In.
  rewrite (product_test_spec query p He). reflexivity.
Qed.

End ProductLookup.

(** X11: [getProductByCode] answers null for an empty code and when no
    stored product has the code; otherwise it answers the first stored
    product with exactly that code, a product that [searchProducts] finds
    for the same text too.  [getProductByName] does the same by name. *)
Theorem getProductBy_exact (key : string) (st : Store) :
  getProductByCode "" st = None
  /\ getProductByName "" st = None
  /\ (forall p, getProductByCode key st = Some p ->
        code p = key /\ In p (getAllProducts st)
        /\ In p (searchProducts key st)
        /\ exists before after,
             getAllProducts st = before ++ p :: after
             /\ forall q, In q before -> code q <> key)
  /\ (forall p, getProductByName key st = Some p ->
        name p = key /\ In p (getAllProducts st)
        /\ In p (searchProducts key st)
        /\ exists before after,
             getAllProducts st = before ++ p :: after
             /\ forall q, In q before -> name q <> key)
  /\ (key <> ""%string ->
      (getProductByCode key st = None
       <-> forall q, In q (getAllProducts st) -> code q <> key)
      /\ (getProductByName key st = None
          <-> forall q, In q (getAllProducts st) -> name q <> key)).
Proof.
  assert (Hfind : forall (f : Product -> string) l p,
    List.find (fun q => String.eqb (f q) key) l = Some p ->
    f p = key /\ In p l
    /\ exists before after, l = before ++ p :: after
                            /\ forall q, In q before -> f q <> key).
  { intros f l. induction l as [|x l IH]; [discriminate|].
    intros p. cbn [List.find].
    destruct (String.eqb_spec (f x) key) as [E|E].
    - intros [= <-]. split; [assumption|]. split; [left; reflexivity|].
      exists [], l. split; [reflexivity|]. intros q [].
    - intros H. destruct (IH p H) as (Hk & Hin & b & a & -> & Hb).
      split; [assumption|]. split; [right; assumption|].
      exists (x :: b), a. split; [reflexivity|].
      intros q [<-|Hq]; [assumption | apply Hb, Hq]. }
  assert (Hnone : forall (f : Product -> string) l,
    List.find (fun q => String.eqb (f q) key) l = None
    <-> forall q, In q l -> f q <> key).
  { intros f l. induction l as [|x l IH]; [cbn; tauto|].
    cbn [List.find]. destruct (String.eqb_spec (f x) key) as [E|E].
    - split; [discriminate|]. intros H. exfalso. apply (H x); [left|]; auto.
    - rewrite IH. split.
      + intros H q [<-|Hq]; [assumption | apply H, Hq].
      + intros H q Hq. apply H. right. assumption. }
  split; [reflexivity|]. split; [reflexivity|].
  split; [|split].
  - intros p. unfold getProductByCode.
    destruct (is_empty key) eqn:He; [discriminate|]. intros H.
    destruct (Hfind code _ p H) as (Hk & Hin & Hex).
    repeat split; try assumption.
    apply searchProducts_In; [destruct key; [discriminate|congruence]|].
    split; [assumption|]. right. rewrite Hk. apply occurs_ignoring_case_refl.
  - intros p. unfold getProductByName.
    destruct (is_empty key) eqn:He; [discriminate|]. intros H.
    destruct (Hfind name _ p H) as (Hk & Hin & Hex).
    repeat split; try assumption.
    apply searchProducts_In; [destruct key; [discriminate|congruence]|].
    split; [assumption|]. left. rewrite Hk. apply occurs_ignoring_case_refl.
  - intros Hk.
    assert (He : is_empty key = false)
      by (destruct key; [exfalso; apply Hk; reflexivity | reflexivity]).
    unfold getProductByCode, getProductByName. rewrite He.
    split; apply Hnone.
Qed.

(** X12: a longer query finds no more: when the query [q1] occurs in the
    query [q2], case ignored, every product [searchProducts] finds for
    [q2] it finds for [q1]; and two queries that differ in case only find
    the same products. *)
Theorem searchProducts_narrows (q1 q2 : string) (st : Store) :
  q1 <> ""%string -> q2 <> ""%string ->
  (occurs_ignoring_case q1 q2 ->
   forall p, In p (searchProducts q2 st) -> In p (searchProducts q1 st))
  /\ (toLowerCase q1 = toLowerCase q2 ->
      searchProducts q1 st = searchProducts q2 st).
Proof.
  intros H1 H2. split.
  - intros Ho p Hp. apply searchProducts_In in Hp as [Hin Hm]; [|assumption].
    apply searchProducts_In; [assumption|]. split; [assumption|].
    destruct Hm as [Hm|Hm]; [left | right];
      eapply occurs_ignoring_case_trans; eassumption.
  - intros E. unfold searchProducts.
    destruct q1; [exfalso; apply H1; reflexivity|].
    destruct q2; [exfalso; apply H2; reflexivity|].
    cbn [is_empty]. rewrite E. reflexivity.
Qed.

Lemma searchProducts_narrows_witness :
  (occurs_ignoring_case "WID" "widget" ->
   forall p,
     In p (searchProducts "widget"
             (mkStore None (Some [mkProduct "Blue Widget" "W1";
                                  mkProduct "Bolt" "wid-9"]) None)) ->
     In p (searchProducts "WID"
             (mkStore None (Some [mkProduct "Blue Widget" "W1";
                                  mkProduct "Bolt" "wid-9"]) None)))
  /\ (toLowerCase "WID" = toLowerCase "widget" ->
      searchProducts "WID"
        (mkStore None (Some [mkProduct "Blue Widget" "W1";
                             mkProduct "Bolt" "wid-9"]) None)
      = searchProducts "widget"
          (mkStore None (Some [mkProduct "Blue Widget" "W1";
                               mkProduct "Bolt" "wid-9"]) None)).
Proof.
  apply (searchProducts_narrows "WID" "widget"); discriminate.
Defined.

(** ** Customers, looked up and saved again *)

Section CustomerLookup.

Lemma find_app_absent {A} (f : A -> bool) (l1 l2 : list A) :
  List.filter f l1 = [] -> List.find f (l1 ++ l2) = List.find f l2.
Proof.
  induction l1 as [|x l1 IH]; [reflexivity|].
  cbn [List.filter app List.find]. destruct (f x); [discriminate|]. exact IH.
Qed.

(** The first element that passes a test is found at one place only. *)
Lemma first_match_unique {A} (f : A -> bool) (l1 l1' l2 l2' : list A) x x' :
  l1 ++ x :: l2 = l1' ++ x' :: l2' ->
  List.filter f l1 = [] -> List.filter f l1' = [] ->
  f x = true -> f x' = true ->
  l1 = l1' /\ x = x' /\ l2 = l2'.
Proof.
  revert l1'. induction l1 as [|y l1 IH]; intros [|y' l1'] E H1 H1' Hx Hx';
    cbn [app List.filter] in *.
  - injection E as -> ->. auto.
  - injection E as -> _. rewrite Hx in H1'. discriminate.
  - injection E as -> _. rewrite Hx' in H1. discriminate.
  - injection E as -> E. destruct (f y'); [discriminate|].
    destruct (IH l1' E H1 H1' Hx Hx') as (-> & -> & ->). auto.
Qed.

(** After a save, the saved record is the first of its name. *)
Lemma saveCustomer_first c st :
  same_name c c = true ->
  exists l1 l2,
    getAllCustomers (saveCustomer c st).2 = l1 ++ c :: l2
    /\ List.filter (same_name c) l1 = [].
Proof.
  intros Hc.
  destruct (List.filter (same_name c) (getAllCustomers st)) as [|y ys] eqn:E.
  - exists (getAllCustomers st), []. split; [|assumption].
    apply saveCustomer_append. assumption.
  - destruct (saveCustomer_replace c st) as (l1 & x & l2 & El & Hx & H1 & E');
      [congruence|].
    exists l1, l2. auto.
Qed.

Lemma normalizeCustomer_object o :
  exists a l, prop (normalizeCustomer (VObj o)) "addresses" = VArr (a :: l).
Proof.
  unfold normalizeCustomer. cbn [truthy negb prop spread].
  destruct (getProp o "addresses") as [| | | | |[|a l]|] eqn:E;
    cbn [prop]; try (rewrite getProp_setProp_eq; eauto).
  rewrite E. eauto.
Qed.

End CustomerLookup.

(** X13: what [normalizeCustomer] returns is null, for a falsy customer,
    or else a value whose [addresses] is an array with at least one
    address. *)
Theorem normalizeCustomer_has_address (c : value) :
  if truthy c
  then exists a l, prop (normalizeCustomer c) "addresses" = VArr (a :: l)
  else normalizeCustomer c = VNull.
Proof.
  unfold normalizeCustomer. destruct (truthy c) eqn:Ht; [|reflexivity].
  cbn [negb].
  destruct (prop c "addresses") as [| | | | |[|a l]|] eqn:E;
    cbn [prop]; try (rewrite getProp_setProp_eq; eauto).
  rewrite E. eauto.
Qed.

(** X14: a customer that was saved is found by its name:
    [getCustomerByName] then gives the saved record, normalised, whatever
    the store held before.  (A name is a string, a number, a boolean or
    null: a value equal to itself.) *)
Theorem getCustomerByName_saved (c : obj) (st : Store) :
  same_name c c = true ->
  getCustomerByName (getProp c "name") (saveCustomer c st).2
  = normalizeCustomer (VObj c).
Proof.
  intros Hc. destruct (saveCustomer_first c st Hc) as (l1 & l2 & E & H1).
  unfold getCustomerByName. rewrite E.
  change (fun c0 : obj => strict_eq (getProp c0 "name") (getProp c "name"))
    with (same_name c).
  rewrite find_app_absent by assumption. cbn [List.find]. rewrite Hc.
  reflexivity.
Qed.

Lemma getCustomerByName_saved_witness :
  getCustomerByName
    (getProp [("name"%string, VStr "Acme"); ("city"%string, VStr "York")] "name")
    (saveCustomer [("name"%string, VStr "Acme"); ("city"%string, VStr "York")]
       (mkStore (Some [[("name"%string, VStr "Acme")]]) None None)).2
  = normalizeCustomer
      (VObj [("name"%string, VStr "Acme"); ("city"%string, VStr "York")]).
Proof.
  apply (getCustomerByName_saved
           [("name"%string, VStr "Acme"); ("city"%string, VStr "York")]).
  reflexivity.
Defined.

(** X15: [getCustomerByName] answers null exactly when no stored record
    has the name; otherwise it answers the first such record, normalised,
    so with at least one address. *)
Theorem getCustomerByName_cases (n : value) (st : Store) :
  (getCustomerByName n st = VNull
   <-> forall r, In r (getAllCustomers st) ->
                 strict_eq (getProp r "name") n = false)
  /\ (getCustomerByName n st <> VNull ->
      exists before r after a l,
        getAllCustomers st = before ++ r :: after
        /\ (forall q, In q before -> strict_eq (getProp q "name") n = false)
        /\ strict_eq (getProp r "name") n = true
        /\ getCustomerByName n st = normalizeCustomer (VObj r)
        /\ prop (getCustomerByName n st) "addresses" = VArr (a :: l)).
Proof.
  unfold getCustomerByName.
  set (f := fun c : obj => strict_eq (getProp c "name") n).
  induction (getAllCustomers st) as [|x l [IH1 IH2]].
  - cbn. split; [split; [intros _ r [] | reflexivity] | congruence].
  - cbn [List.find]. destruct (f x) eqn:Hx.
    + destruct (normalizeCustomer_object x) as (a & l' & Ha). split.
      * split.
        -- intros H. rewrite H in Ha. discriminate.
        -- intros H. specialize (H x (or_introl eq_refl)). fold (f x) in H.
           congruence.
      * intros _. exists [], x, l, a, l'. repeat split; try assumption.
        intros q [].
    + split.
      * rewrite IH1. split.
        -- intros H r [<-|Hr]; [exact Hx | apply H, Hr].
        -- intros H r Hr. apply H. right. assumption.
      * intros H. destruct (IH2 H) as (b & r & a' & a & l' & -> & Hb & Hr & E & Ha).
        exists (x :: b), r, a', a, l'. repeat split; try assumption.
        intros q [<-|Hq]; [exact Hx | apply Hb, Hq].
Qed.

(** X16: saving the same record twice is saving it once. *)
Theorem saveCustomer_idempotent (c : obj) (st : Store) :
  same_name c c = true ->
  saveCustomer c (saveCustomer c st).2 = saveCustomer c st.
Proof.
  intros Hc.
  assert (Hl : getAllCustomers (saveCustomer c (saveCustomer c st).2).2
               = getAllCustomers (saveCustomer c st).2).
  { destruct (saveCustomer_first c st Hc) as (l1 & l2 & E & H1).
    destruct (saveCustomer_replace c (saveCustomer c st).2)
      as (l1' & x & l2' & E' & Hx & H1' & ->).
    - rewrite E, List.filter_app, H1. cbn [List.filter app]. rewrite Hc.
      discriminate.
    - rewrite E in E'.
      destruct (first_match_unique _ _ _ _ _ _ _ E' H1 H1' Hc Hx)
        as (-> & -> & ->).
      symmetry. assumption. }
  change (saveCustomer c (saveCustomer c st).2)
    with (true, mkStore (Some (getAllCustomers
                                 (saveCustomer c (saveCustomer c st).2).2))
                        (productDatabase st) (callsheets st)).
  rewrite Hl. reflexivity.
Qed.

Lemma saveCustomer_idempotent_witness :
  saveCustomer [("name"%string, VStr "Acme"); ("city"%string, VStr "York")]
    (saveCustomer [("name"%string, VStr "Acme"); ("city"%string, VStr "York")]
       (mkStore (Some [[("name"%string, VStr "Bolt Ltd")]]) None None)).2
  = saveCustomer [("name"%string, VStr "Acme"); ("city"%string, VStr "York")]
      (mkStore (Some [[("name"%string, VStr "Bolt Ltd")]]) None None).
Proof.
  apply (saveCustomer_idempotent
           [("name"%string, VStr "Acme"); ("city"%string, VStr "York")]).
  reflexivity.
Defined.

(** X17: no name is ever stored twice: starting from a store without
    customers, any sequence of saves leaves a list in which each name
    occurs at most once; and a save touches neither the products nor the
    callsheets. *)
Theorem saveCustomer_sequence_unique (cs : list obj) (products : option (list Product))
    (sheets : option (gmap string (list value))) :
  let st := fold_left (fun st c => (saveCustomer c st).2) cs
              (mkStore None products sheets) in
  names_unique (getAllCustomers st)
  /\ productDatabase st = products
  /\ callsheets st = sheets.
Proof.
  cbv zeta.
  assert (Hgen : forall st0,
    names_unique (getAllCustomers st0) ->
    let st := fold_left (fun st c => (saveCustomer c st).2) cs st0 in
    names_unique (getAllCustomers st)
    /\ productDatabase st = productDatabase st0
    /\ callsheets st = callsheets st0).
  { induction cs as [|c cs IH]; intros st0 H0; cbn [fold_left].
    - auto.
    - destruct (IH (saveCustomer c st0).2) as (H1 & H2 & H3).
      + apply saveCustomer_names_unique. assumption.
      + auto. }
  apply (Hgen (mkStore None products sheets)). intros c. cbn. lia.
Qed.

(** X23: a customer found by name carries that name, and every property
    of the stored record but [addresses]. *)
Theorem getCustomerByName_properties (n : value) (st : Store) :
  getCustomerByName n st <> VNull ->
  prop (getCustomerByName n st) "name" = n
  /\ exists r, In r (getAllCustomers st)
               /\ forall k, k <> "addresses"%string ->
                            prop (getCustomerByName n st) k = getProp r k.
Proof.
  unfold getCustomerByName.
  destruct (List.find (fun c => strict_eq (getProp c "name") n)
              (getAllCustomers st)) as [r|] eqn:E; [|congruence].
  intros _. apply List.find_some in E as [Hin Hn].
  apply strict_eq_true in Hn.
  assert (Hk : forall k, k <> "addresses"%string ->
                         prop (normalizeCustomer (VObj r)) k = getProp r k).
  { intros k Hk. unfold normalizeCustomer. cbn [truthy negb prop spread].
    destruct (getProp r "addresses") as [| | | | |[|a l]|]; cbn [prop];
      try (apply getProp_setProp_ne; congruence).
    reflexivity. }
  split.
  - rewrite Hk by discriminate. assumption.
  - exists r. split; assumption.
Qed.

Lemma getCustomerByName_properties_witness :
  prop (getCustomerByName (VStr "Acme")
          (mkStore (Some [[("name"%string, VStr "Acme");
                           ("city"%string, VStr "York")]]) None None))
       "name" = VStr "Acme"
  /\ exists r,
       In r (getAllCustomers
               (mkStore (Some [[("name"%string, VStr "Acme");
                                ("city"%string, VStr "York")]]) None None))
       /\ forall k, k <> "addresses"%string ->
            prop (getCustomerByName (VStr "Acme")
                    (mkStore (Some [[("name"%string, VStr "Acme");
                                     ("city"%string, VStr "York")]])
                             None None)) k
            = getProp r k.
Proof.
  apply (getCustomerByName_properties (VStr "Acme")). vm_compute. discriminate.
Defined.

(** ** Callsheets of a week *)

Section WeekKeys.

Lemma has_char_append c (a b : string) :
  has_char c (a ++ b) = has_char c a || has_char c b.
Proof.
  induction a as [|d a IH]; [reflexivity|].
  rewrite append_cons. cbn [has_char]. rewrite IH, orb_assoc. reflexivity.
Qed.

(** The names of [Object.prototype] have no hyphen. *)
Lemma objectPrototype_hyphen key :
  has_char "-" key = true -> objectPrototype key = None.
Proof.
  intros H. unfold objectPrototype.
  repeat match goal with
         | |- context [String.eqb key ?k] =>
             destruct (String.eqb_spec key k) as [->|_]; [discriminate H|]
         end.
  reflexivity.
Qed.

(** A week identifier has one, so it names nothing inherited. *)
Lemma getWeekIdentifier_hyphen now : has_char "-" (getWeekIdentifier now) = true.
Proof.
  unfold getWeekIdentifier. cbv zeta. rewrite has_char_append.
  match goal with
  | |- context [("-W" ++ ?x)%string] =>
      change ("-W" ++ x)%string with (String "-" (String "W" x))
  end.
  cbn [has_char]. change (Ascii.eqb "-" "-") with true. apply orb_true_r.
Qed.

Lemma getWeekIdentifier_own_key now :
  objectPrototype (getWeekIdentifier now) = None
  /\ getWeekIdentifier now <> "__proto__"%string.
Proof.
  pose proof (getWeekIdentifier_hyphen now) as H. split.
  - apply objectPrototype_hyphen. assumption.
  - intros E. rewrite E in H. discriminate.
Qed.

Lemma addToCurrentCallsheet_week entry now st :
  exists old,
    getCallsheetForWeek (getWeekIdentifier now) st = Entries old
    /\ addToCurrentCallsheet entry now st
       = Some (saveCallsheetForWeek (getWeekIdentifier now) (old ++ [entry]) st)
    /\ getCallsheetForWeek (getWeekIdentifier now)
         (saveCallsheetForWeek (getWeekIdentifier now) (old ++ [entry]) st).2
       = Entries (old ++ [entry]).
Proof.
  destruct (getWeekIdentifier_own_key now) as [Hp Hn].
  destruct (getCallsheetForWeek_entries _ st Hp) as [old Ho].
  exists old. split; [assumption|]. split.
  - unfold addToCurrentCallsheet. cbv zeta. rewrite Ho. reflexivity.
  - apply getCallsheetForWeek_save_eq. left. assumption.
Qed.

Lemma saveCallsheetForWeek_plain weekId entries st :
  weekId <> "__proto__"%string ->
  saveCallsheetForWeek weekId entries st
  = (true, mkStore (customerDatabase st) (productDatabase st)
             (Some (<[weekId := entries]> (getAllCallsheets st)))).
Proof.
  intros H. unfold saveCallsheetForWeek, setCallsheets. cbv zeta.
  destruct (String.eqb_spec weekId "__proto__") as [E|_]; [contradiction|].
  reflexivity.
Qed.

End WeekKeys.

(** X18: a week's callsheet that was saved is read back as it was saved,
    under any week id but [__proto__]; the callsheets of the other weeks,
    the customers and the products stay as they were; and of two saves for
    one week the second stands. *)
Theorem saveCallsheetForWeek_lookup (weekId : string) (entries earlier : list value)
    (st : Store) :
  weekId <> "__proto__"%string ->
  let st' := (saveCallsheetForWeek weekId entries st).2 in
  (saveCallsheetForWeek weekId entries st).1 = true
  /\ getCallsheetForWeek weekId st' = Entries entries
  /\ (forall w, w <> weekId ->
        getCallsheetForWeek w st' = getCallsheetForWeek w st)
  /\ getAllCustomers st' = getAllCustomers st
  /\ getAllProducts st' = getAllProducts st
  /\ saveCallsheetForWeek weekId entries
       (saveCallsheetForWeek weekId earlier st).2
     = saveCallsheetForWeek weekId entries st.
Proof.
  intros Hn. cbv zeta. split; [reflexivity|].
  split; [apply getCallsheetForWeek_save_eq; left; assumption|].
  split; [intros w Hw; apply getCallsheetForWeek_save_ne; assumption|].
  split; [reflexivity|]. split; [reflexivity|].
  rewrite !saveCallsheetForWeek_plain by assumption.
  cbn [snd customerDatabase productDatabase].
  unfold getAllCallsheets at 1. cbn [callsheets default from_option id].
  rewrite insert_insert_eq. reflexivity.
Qed.

Lemma saveCallsheetForWeek_lookup_witness :
  (saveCallsheetForWeek "constructor" [VStr "a"] (mkStore None None None)).1
  = true
  /\ getCallsheetForWeek "constructor"
       (saveCallsheetForWeek "constructor" [VStr "a"]
          (mkStore None None None)).2
     = Entries [VStr "a"]
  /\ (forall w, w <> "constructor"%string ->
        getCallsheetForWeek w
          (saveCallsheetForWeek "constructor" [VStr "a"]
             (mkStore None None None)).2
        = getCallsheetForWeek w (mkStore None None None))
  /\ getAllCustomers
       (saveCallsheetForWeek "constructor" [VStr "a"]
          (mkStore None None None)).2
     = getAllCustomers (mkStore None None None)
  /\ getAllProducts
       (saveCallsheetForWeek "constructor" [VStr "a"]
          (mkStore None None None)).2
     = getAllProducts (mkStore None None None)
  /\ saveCallsheetForWeek "constructor" [VStr "a"]
       (saveCallsheetForWeek "constructor" [VStr "b"]
          (mkStore None None None)).2
     = saveCallsheetForWeek "constructor" [VStr "a"] (mkStore None None None).
Proof.
  apply (saveCallsheetForWeek_lookup "constructor" [VStr "a"] [VStr "b"]
           (mkStore None None None)).
  discriminate.
Defined.

(** X19: [addToCurrentCallsheet] does not throw and answers [true]; it
    puts the entry at the end of the current week's callsheet and leaves
    the other weeks alone, whatever the current time is. *)
Theorem addToCurrentCallsheet_appends (entry : value) (now : Date) (st : Store) :
  exists old st',
    getCurrentWeekCallsheet now st = Entries old
    /\ addToCurrentCallsheet entry now st = Some (true, st')
    /\ getCurrentWeekCallsheet now st' = Entries (old ++ [entry])
    /\ (forall w, w <> getWeekIdentifier now ->
          getCallsheetForWeek w st' = getCallsheetForWeek w st).
Proof.
  destruct (addToCurrentCallsheet_week entry now st) as (old & Ho & Ha & Hn).
  exists old,
    (saveCallsheetForWeek (getWeekIdentifier now) (old ++ [entry]) st).2.
  unfold getCurrentWeekCallsheet. cbv zeta.
  split; [assumption|]. split; [rewrite Ha; reflexivity|].
  split; [assumption|].
  intros w Hw. apply getCallsheetForWeek_save_ne. assumption.
Qed.

(** X20: an entry added on one day is on the current callsheet of every
    other day of the same Monday-to-Sunday week. *)
Theorem addToCurrentCallsheet_same_week (entry : value) (t1 t2 : Z) (st : Store) :
  valid_time t1 -> valid_time t2 -> same_week t1 t2 ->
  exists old st',
    getCurrentWeekCallsheet (Some t2) st = Entries old
    /\ addToCurrentCallsheet entry (Some t1) st = Some (true, st')
    /\ getCurrentWeekCallsheet (Some t2) st' = Entries (old ++ [entry]).
Proof.
  intros V1 V2 Hw. unfold getCurrentWeekCallsheet. cbv zeta.
  rewrite <- (getWeekIdentifier_same_week t1 t2 V1 V2 Hw).
  destruct (addToCurrentCallsheet_week entry (Some t1) st) as (old & Ho & Ha & Hn).
  exists old,
    (saveCallsheetForWeek (getWeekIdentifier (Some t1)) (old ++ [entry]) st).2.
  split; [assumption|]. split; [rewrite Ha; reflexivity | assumption].
Qed.

Lemma addToCurrentCallsheet_same_week_witness :
  exists old st',
    getCurrentWeekCallsheet (Some 1794150000000) (mkStore None None None)
    = Entries old
    /\ addToCurrentCallsheet (VStr "call Acme") (Some 1793631600000)
         (mkStore None None None)
       = Some (true, st')
    /\ getCurrentWeekCallsheet (Some 1794150000000) st'
       = Entries (old ++ [VStr "call Acme"]).
Proof.
  apply (addToCurrentCallsheet_same_week (VStr "call Acme")
           1793631600000 1794150000000);
    vm_compute; try reflexivity; discriminate.
Defined.

(** X21: removing the entry that was just added gives the week's
    callsheet back: [removeCallsheetEntry] at the old length answers true
    and leaves every week's callsheet as it was before the entry was
    added. *)
Theorem addToCurrentCallsheet_undo (entry : value) (now : Date) (st : Store) :
  exists old st' st'',
    getCurrentWeekCallsheet now st = Entries old
    /\ addToCurrentCallsheet entry now st = Some (true, st')
    /\ removeCallsheetEntry (getWeekIdentifier now) (Z.of_nat (length old)) st'
       = Some (true, st'')
    /\ (forall w, getCallsheetForWeek w st'' = getCallsheetForWeek w st).
Proof.
  destruct (addToCurrentCallsheet_week entry now st) as (old & Ho & Ha & Hn).
  destruct (getWeekIdentifier_own_key now) as [_ Hk].
  set (weekId := getWeekIdentifier now) in *.
  set (st' := (saveCallsheetForWeek weekId (old ++ [entry]) st).2) in *.
  exists old, st', (saveCallsheetForWeek weekId old st').2.
  unfold getCurrentWeekCallsheet. cbv zeta. fold weekId.
  split; [assumption|]. split; [rewrite Ha; reflexivity|]. split.
  - unfold removeCallsheetEntry. rewrite Hn, length_app. cbn [length].
    destruct (Z.leb_spec 0 (Z.of_nat (length old))); [|lia].
    destruct (Z.ltb_spec (Z.of_nat (length old))
                (Z.of_nat (length old + 1))); [|lia].
    cbn [andb]. rewrite Nat2Z.id.
    replace (delete (length old) (old ++ [entry])) with old; [reflexivity|].
    clear. induction old as [|x old IH]; [reflexivity|].
    cbn. f_equal. exact IH.
  - intros w. destruct (String.eqb_spec w weekId) as [->|Hne].
    + rewrite getCallsheetForWeek_save_eq by (left; assumption).
      symmetry. assumption.
    + rewrite getCallsheetForWeek_save_ne by assumption.
      subst st'. apply getCallsheetForWeek_save_ne. assumption.
Qed.

(** ** Form validation *)

Section Validation.

Variable form : Form.

(** Each round adds to the errors found so far and forgets none. *)
Lemma validateField_acc (acc : list string) (fieldId : string) :
  validateField form acc fieldId
  = match validateField form [] fieldId with
    | Some es => Some (acc ++ es)
    | None => None
    end.
Proof.
  unfold validateField.
  destruct (querySelector form (idSelector fieldId)) as [| |field];
    [reflexivity | reflexivity |].
  assert (Hreq :
    match querySelector form (labelSelector fieldId) with
    | QueryThrows => None
    | QueryNull => Some (acc ++ [(fieldId ++ " is required")%string])
    | QueryFound label =>
        Some (acc ++ [(textContent label ++ " is required")%string])
    end
    = match
        match querySelector form (labelSelector fieldId) with
        | QueryThrows => None
        | QueryNull => Some ([] ++ [(fieldId ++ " is required")%string])
        | QueryFound label =>
            Some ([] ++ [(textContent label ++ " is required")%string])
        end
      with
      | Some es => Some (acc ++ es)
      | None => None
      end)
    by (destruct (querySelector form (labelSelector fieldId)); reflexivity).
  destruct (elementValue field) as [|v|[|]]; try exact Hreq; [|reflexivity].
  destruct (is_empty v || is_empty (trim v)); [exact Hreq|].
  rewrite app_nil_r. reflexivity.
Qed.

(** A round on a readable field does not throw: it reports one error, or
    none exactly when the field is filled. *)
Lemma validateField_readable (fieldId : string) :
  field_readable form fieldId ->
  exists es, validateField form [] fieldId = Some es
             /\ (length es <= 1)%nat
             /\ (es = [] <-> field_filled form fieldId).
Proof.
  intros (Hq & Hl & Hn). unfold field_filled, validateField.
  destruct (querySelector form (idSelector fieldId)) as [| |field] eqn:Eq;
    [contradiction| |].
  - eexists. split; [reflexivity|]. split; [cbn; lia|].
    split; [discriminate|]. intros (e & v & [=] & _).
  - assert (Hreq : exists es,
      match querySelector form (labelSelector fieldId) with
      | QueryThrows => None
      | QueryNull => Some ([] ++ [(fieldId ++ " is required")%string])
      | QueryFound label =>
          Some ([] ++ [(textContent label ++ " is required")%string])
      end = Some es /\ length es = 1%nat).
    { destruct (querySelector form (labelSelector fieldId));
        [contradiction | |]; eexists; split; reflexivity. }
    destruct Hreq as (es & Hes & Hlen).
    specialize (Hn field eq_refl).
    destruct (elementValue field) as [|v|[|]] eqn:Ev; [| | congruence |].
    + exists es. split; [assumption|]. split; [lia|].
      split; [intros ->; discriminate|].
      intros (e & v & [= <-] & Hv & _). congruence.
    + destruct (is_empty v) eqn:E1; cbn [orb].
      * exists es. split; [assumption|]. split; [lia|].
        split; [intros ->; discriminate|].
        intros (e & v' & [= <-] & Hv & Ht). rewrite Ev in Hv.
        injection Hv as <-. apply is_empty_true in E1. subst v.
        exfalso. apply Ht. reflexivity.
      * destruct (is_empty (trim v)) eqn:E2.
        -- exists es. split; [assumption|]. split; [lia|].
           split; [intros ->; discriminate|].
           intros (e & v' & [= <-] & Hv & Ht). rewrite Ev in Hv.
           injection Hv as <-. apply is_empty_true in E2. exfalso. auto.
        -- exists []. split; [reflexivity|]. split; [cbn; lia|].
           split; [|reflexivity]. intros _. exists field, v.
           repeat split; [assumption|]. intros E. rewrite E in E2.
           discriminate.
    + exists es. split; [assumption|]. split; [lia|].
      split; [intros ->; discriminate|].
      intros (e & v & [= <-] & Hv & _). congruence.
Qed.

Lemma validate_fold (required : list string) (acc : list string) :
  (forall fieldId, In fieldId required -> field_readable form fieldId) ->
  exists es,
    fold_left (fun errors fieldId =>
                 match errors with
                 | Some errors => validateField form errors fieldId
                 | None => None
                 end) required (Some acc)
    = Some (acc ++ es)
    /\ (length es <= length required)%nat
    /\ (es = [] <-> forall fieldId, In fieldId required -> field_filled form fieldId).
Proof.
  revert acc. induction required as [|x req IH]; intros acc Hr;
    cbn [fold_left].
  - exists []. rewrite app_nil_r. split; [reflexivity|]. split; [cbn; lia|].
    split; [intros _ f [] | reflexivity].
  - destruct (validateField_readable x (Hr x (or_introl eq_refl)))
      as (e1 & H1 & L1 & F1).
    rewrite validateField_acc, H1.
    destruct (IH (acc ++ e1) (fun f Hf => Hr f (or_intror Hf)))
      as (es & H2 & L2 & F2).
    exists (e1 ++ es). rewrite H2, <- app_assoc.
    split; [reflexivity|]. split; [rewrite length_app; cbn [length]; lia|].
    split.
    + intros H. apply app_eq_nil in H as [-> ->].
      intros f [<-|Hf]; [apply F1; reflexivity | apply F2; [reflexivity|assumption]].
    + intros H.
      assert (E1 : e1 = []) by (apply F1, H; left; reflexivity).
      assert (E2 : es = []) by (apply F2; intros f Hf; apply H; right; assumption).
      subst. reflexivity.
Qed.

End Validation.

(** X22: when the queries for the required fields do not throw and no
    field holds a number, [validateForm] returns; it finds the form valid
    exactly when every required field is found with a value that is not
    blank (not empty and not white space only); it reports at most one
    error for each required field, and none exactly when the form is
    valid. *)
Theorem validateForm_valid (form : Form) (requiredFields : list string) :
  (forall fieldId, In fieldId requiredFields -> field_readable form fieldId) ->
  exists r,
    validateForm form requiredFields = Some r
    /\ (isValid r = true
        <-> forall fieldId, In fieldId requiredFields ->
              exists e v,
                querySelector form (idSelector fieldId) = QueryFound e
                /\ elementValue e = TextValue v /\ trim v <> ""%string)
    /\ (isValid r = true <-> errors r = [])
    /\ (length (errors r) <= length requiredFields)%nat.
Proof.
  intros Hr. destruct (validate_fold form requiredFields [] Hr)
    as (es & Hf & Hl & Hv).
  unfold validateForm. cbv zeta. rewrite Hf. cbn [app].
  eexists. split; [reflexivity|]. cbn [isValid errors].
  assert (Hnil : Nat.eqb (length es) 0 = true <-> es = [])
    by (destruct es; cbn; split; congruence).
  split; [|split; [exact Hnil | exact Hl]].
  rewrite Hnil. exact Hv.
Qed.

Lemma validateForm_valid_witness :
  exists r,
    validateForm
      (mkForm (fun selector =>
                 if String.eqb selector "#customer"
                 then QueryFound (mkElement (TextValue "Acme") "")
                 else if String.eqb selector "#date"
                 then QueryFound (mkElement (TextValue "  ") "")
                 else QueryNull))
      ["customer"; "date"]%string
    = Some r
    /\ (isValid r = true
        <-> forall fieldId, In fieldId ["customer"; "date"]%string ->
              exists e v,
                querySelector
                  (mkForm (fun selector =>
                             if String.eqb selector "#customer"
                             then QueryFound (mkElement (TextValue "Acme") "")
                             else if String.eqb selector "#date"
                             then QueryFound (mkElement (TextValue "  ") "")
                             else QueryNull))
                  (idSelector fieldId) = QueryFound e
                /\ elementValue e = TextValue v /\ trim v <> ""%string)
    /\ (isValid r = true <-> errors r = [])
    /\ (length (errors r) <= length ["customer"; "date"]%string)%nat.
Proof.
  apply (validateForm_valid
           (mkForm (fun selector =>
                      if String.eqb selector "#customer"
                      then QueryFound (mkElement (TextValue "Acme") "")
                      else if String.eqb selector "#date"
                      then QueryFound (mkElement (TextValue "  ") "")
                      else QueryNull))
           ["customer"; "date"]%string).
  intros fieldId [<-|[<-|[]]]; vm_compute; repeat split; try discriminate;
    intros e [= <-]; discriminate.
Defined.

Example validateForm_example :
  validateForm
    (mkForm (fun selector =>
               if String.eqb selector "#customer"
               then QueryFound (mkElement (TextValue "Acme") "")
               else if String.eqb selector "#date"
               then QueryFound (mkElement (TextValue "  ") "")
               else if String.eqb selector (labelSelector "date")
               then QueryFound (mkElement NoValue "Delivery date")
               else if String.eqb selector "#notes"
               then QueryFound (mkElement NoValue "")
               else if String.eqb selector "#1abc" then QueryThrows
               else QueryNull))
    ["customer"; "date"; "notes"; "total"]%string
  = Some (mkValidation false
            ["Delivery date is required"; "notes is required";
             "Field total not found"]%string)
  /\ validateForm
       (mkForm (fun selector =>
                  if String.eqb selector "#1abc" then QueryThrows
                  else QueryNull))
       ["1abc"]%string
     = None.
Proof. vm_compute. split; reflexivity. Qed.
